(** * BusyIndicatorManager: a registry of named busy flags

    Shallow embedding of [src/BusyIndicatorManager.ts].  The class keeps a
    JavaScript object [states] used as a string-keyed dictionary and two
    boolean switches, [strict] and [createOnGet].  Its methods mutate the
    instance, write warnings with [console.warn] and may [throw]; they are
    embedded in a small state-and-exception monad over the instance and
    the console.

    The dictionary is an ordinary JavaScript object, and [init] takes the
    one the caller hands in as it is.  The embedding therefore follows
    what the language does with such an object: [key in obj] and
    [obj[key]] also see what the object inherits, from [Object.prototype]
    or from a prototype of the caller's; the name [__proto__] is an
    accessor on [Object.prototype]; a property that is read-only or cannot
    be deleted, as in a frozen or sealed object, and an object that cannot
    be extended refuse the change with a [TypeError] (class bodies are
    strict-mode code); and a value may be one that cannot be printed into
    a message.  Keys are property names: a number used as a key is the
    string it prints as. *)

From Stdlib Require Import Ascii String.
From stdpp Require Import gmap strings fin_maps.

Open Scope string_scope.

(** ** JavaScript values *)

(** The values a caller stores are of type [any].  The class tells
    [undefined] and [null] apart from everything else and prints values
    into its messages.  A number or bigint is given by the text it prints
    as; an object (or function) is given by what [String] makes of it,
    [None] when that conversion throws, as it does for an object without
    prototype.  Conversions that run caller code with effects on the
    registry are outside the model. *)
Inductive value : Type :=
  | VUndefined
  | VNull
  | VBool (b : bool)
  | VStr (s : string)
  | VNumber (printed : string)
  | VBigInt (printed : string)
  | VSymbol (description : string)
  | VObject (string_of : option string).

#[global] Instance value_eq_dec : EqDecision value.
Proof. solve_decision. Defined.

(** How a call ends: it returns; the class throws its own [Error] with a
    message; the engine throws a [TypeError]; or the call leaves the
    objects this model describes ([Unmodelled]: the prototype of [states]
    is replaced by some other object). *)
Inductive completion (A : Type) : Type :=
  | Normal (a : A)
  | Throw (message : string)
  | ThrowTypeError
  | Unmodelled.
Arguments Normal {A} a.
Arguments Throw {A} message.
Arguments ThrowTypeError {A}.
Arguments Unmodelled {A}.

(** ** The object behind [states] *)

(** A data property: the value it holds and the two attributes that decide
    whether it can be assigned to and whether it can be deleted. *)
Record slot : Type := mkSlot {
  held : value;
  writable : bool;
  configurable : bool
}.

(** The property that an assignment creates and that an object literal
    spells out. *)
Definition plain (v : value) : slot := mkSlot v true true.

(** What the object inherits from: [Object.prototype], as for an object
    literal; nothing, as for [Object.create(null)]; or another object with
    data properties of its own, as for a class instance or
    [Object.create(base)].  Such an object is given by what [String] makes
    of it, by its properties and by what it inherits from in turn. *)
Inductive prototype : Type :=
  | ObjectPrototype
  | NullPrototype
  | Extends (printed : option string) (members : gmap string slot)
      (next : prototype).

(** An ordinary object whose properties are data properties: the object
    [init] builds or is handed through [initialStates].
    [Object.preventExtensions], [Object.seal] and [Object.freeze] clear
    [extensible]; the last two also clear attributes of the properties.
    What such an object does is fixed by this state.  Properties with a
    getter or setter of the caller's, and exotic objects such as arrays
    and proxies, run other code and are outside the model. *)
Record object : Type := mkObject {
  own : gmap string slot;
  proto : prototype;
  extensible : bool
}.

(** [obj !! key] is the value of the own property.  [<[key:=v]> obj] is
    what a successful [obj[key] = v] leaves: the value of an own property
    is replaced and its attributes stay, a new property is [plain].
    [delete key obj] removes the own property, and [∅] is the literal
    [{}]. *)
#[global] Instance object_lookup : Lookup string value object :=
  λ key obj, held <$> own obj !! key.

#[global] Instance object_insert : Insert string value object :=
  λ key v obj,
    mkObject
      (<[key := match own obj !! key with
                | Some s => mkSlot v (writable s) (configurable s)
                | None => plain v
                end]> (own obj))
      (proto obj) (extensible obj).

#[global] Instance object_delete : Delete string object :=
  λ key obj, mkObject (delete key (own obj)) (proto obj) (extensible obj).

#[global] Instance object_empty : Empty object :=
  mkObject ∅ ObjectPrototype true.

(** What a name resolves to on the prototype chain. *)
Inductive property : Type :=
  | Absent
  | Data (v : value) (writable : bool)
  | ProtoAccessor.

(** What an assignment [obj[key] = v] amounts to. *)
Inductive assignment : Type :=
  | Overwrites
  | Creates
  | CallsProtoSetter
  | Rejected.

Module JS.

(** [is_nullish v]: [v === null || v === undefined]. *)
Definition is_nullish (v : value) : bool :=
  match v with
  | VUndefined | VNull => true
  | _ => false
  end.

(** [a ?? b]. *)
Definition nullish_coalesce (a b : value) : value :=
  if is_nullish a then b else a.

(** A parameter declared [p = d].  The argument is [None] when the call
    site omits it; the default is taken when the argument is omitted or
    is [undefined] ([null] does not trigger it). *)
Definition default_param (arg : option value) (d : value) : value :=
  match arg with
  | None | Some VUndefined => d
  | Some v => v
  end.

(** [String(v)]; [None] when the conversion throws a [TypeError]. *)
Definition to_String (v : value) : option string :=
  match v with
  | VUndefined => Some "undefined"
  | VNull => Some "null"
  | VBool true => Some "true"
  | VBool false => Some "false"
  | VStr s => Some s
  | VNumber printed => Some printed
  | VBigInt printed => Some printed
  | VSymbol description => Some ("Symbol(" +:+ description +:+ ")")
  | VObject string_of => string_of
  end.

(** A bare [${v}] in a template literal: as [String(v)], except that a
    symbol is refused with a [TypeError]. *)
Definition template (v : value) : option string :=
  match v with
  | VSymbol _ => None
  | _ => to_String v
  end.

(** The function-valued properties of [Object.prototype]. *)
Definition Object_prototype_names : list string :=
  ["constructor"; "hasOwnProperty"; "isPrototypeOf"; "propertyIsEnumerable";
   "toLocaleString"; "toString"; "valueOf"; "__defineGetter__";
   "__defineSetter__"; "__lookupGetter__"; "__lookupSetter__"].

(** [Object.prototype] as a value. *)
Definition Object_prototype : value := VObject (Some "[object Object]").

(** [Object.prototype[name]] for those names: a built-in function, here
    with the text V8 prints for it; [constructor] is [Object]. *)
Definition Object_prototype_member (name : string) : value :=
  VObject
    (Some ("function "
             +:+ (if decide (name = "constructor") then "Object" else name)
             +:+ "() { [native code] }")).

(** Property lookup on [Object.prototype]: its functions are writable
    data properties. *)
Definition Object_prototype_property (key : string) : property :=
  if decide (key = "__proto__") then ProtoAccessor
  else if decide (key ∈ Object_prototype_names)
       then Data (Object_prototype_member key) true
       else Absent.

(** Property lookup along a prototype chain: the nearest object that has
    the name decides. *)
Fixpoint resolve (chain : prototype) (key : string) : property :=
  match chain with
  | ObjectPrototype => Object_prototype_property key
  | NullPrototype => Absent
  | Extends _ members next =>
      match members !! key with
      | Some s => Data (held s) (writable s)
      | None => resolve next key
      end
  end.

(** What [obj] inherits under [key]. *)
Definition inherited (obj : object) (key : string) : property :=
  resolve (proto obj) key.

(** The prototype as a value, which is what the [__proto__] getter
    returns. *)
Definition prototype_of (obj : object) : value :=
  match proto obj with
  | ObjectPrototype => Object_prototype
  | NullPrototype => VNull
  | Extends printed _ _ => VObject printed
  end.

(** [key in obj]: an own property or an inherited one. *)
Definition key_in (key : string) (obj : object) : bool :=
  match obj !! key with
  | Some _ => true
  | None =>
      match inherited obj key with
      | Absent => false
      | _ => true
      end
  end.

(** [obj[key]]: the own property, else the inherited one, else
    [undefined]. *)
Definition index (obj : object) (key : string) : value :=
  match obj !! key with
  | Some v => v
  | None =>
      match inherited obj key with
      | Absent => VUndefined
      | Data v _ => v
      | ProtoAccessor => prototype_of obj
      end
  end.

(** What [obj[key] = v] does, before looking at [v].  An own property is
    overwritten if it is writable.  Otherwise the name is looked up on the
    prototype chain: the [__proto__] setter runs if the name resolves to
    it; an inherited property that is not writable stands in the way; in
    every other case an own property is created if the object is
    extensible. *)
Definition assignment_of (key : string) (obj : object) : assignment :=
  match own obj !! key with
  | Some s => if writable s then Overwrites else Rejected
  | None =>
      match inherited obj key with
      | ProtoAccessor => CallsProtoSetter
      | Data _ false => Rejected
      | _ => if extensible obj then Creates else Rejected
      end
  end.

(** The assignment stores an own property. *)
Definition stores (key : string) (obj : object) : bool :=
  match assignment_of key obj with
  | Overwrites | Creates => true
  | _ => false
  end.

(** [obj[key] = v] in strict-mode code, where a refused assignment is a
    [TypeError].  The [__proto__] setter ignores a value that is neither
    an object nor [null]; [null] removes the prototype, which an object
    that is not extensible refuses; another object would become the
    prototype. *)
Definition assign_property (key : string) (v : value) (obj : object)
    : completion object :=
  match assignment_of key obj with
  | Overwrites | Creates => Normal (<[key := v]> obj)
  | Rejected => ThrowTypeError
  | CallsProtoSetter =>
      match v with
      | VNull =>
          if extensible obj
          then Normal (mkObject (own obj) NullPrototype true)
          else ThrowTypeError
      | VObject _ => Unmodelled
      | _ => Normal obj
      end
  end.

(** [delete obj[key]] gives up an own property that is configurable. *)
Definition deletes (key : string) (obj : object) : bool :=
  match own obj !! key with
  | Some s => configurable s
  | None => true
  end.

(** [delete obj[key]] in strict-mode code: an own property that is not
    configurable, as every property of a sealed or frozen object, is a
    [TypeError]; a name that is not an own property is left alone. *)
Definition delete_property (key : string) (obj : object)
    : completion object :=
  match own obj !! key with
  | Some s =>
      if configurable s then Normal (delete key obj) else ThrowTypeError
  | None => Normal obj
  end.

(** [Object.freeze(obj)]: no property can be added, changed or deleted. *)
Definition Object_freeze (obj : object) : object :=
  mkObject ((λ s, mkSlot (held s) false false) <$> own obj) (proto obj)
    false.

(** [Object.isFrozen(obj)]. *)
Definition is_frozen (obj : object) : bool :=
  negb (extensible obj)
  && bool_decide
       (map_Forall (λ _ s, writable s = false ∧ configurable s = false)
          (own obj)).

(** [o || d] for an optional boolean [o]: [undefined] and [false] are
    falsy. *)
Definition or_bool (o : option bool) (d : bool) : bool :=
  match o with
  | Some true => true
  | _ => d
  end.

(** [o ?? d] for an optional boolean [o]. *)
Definition nullish_bool (o : option bool) (d : bool) : bool :=
  match o with
  | Some b => b
  | None => d
  end.

(** [o || d] for an optional object [o]: every object is truthy. *)
Definition or_object (o : option object) (d : object) : object :=
  match o with
  | Some m => m
  | None => d
  end.

(** The double-quote character of the message templates. *)
Definition dq : string := String "034"%char EmptyString.

End JS.

(** ** The instance, the console and the effect monad *)

Module InitOptions.
Record t : Type := mk {
  strict : option bool;
  createOnGet : option bool;
  initialStates : option object
}.
End InitOptions.

Record BusyIndicatorManager : Type := mkManager {
  states : object;
  strict : bool;
  createOnGet : bool
}.

(** What a method can touch: the instance it is called on and the list of
    messages written with [console.warn], oldest first. *)
Record World : Type := mkWorld {
  this : BusyIndicatorManager;
  console : list string
}.

Definition M (A : Type) : Type := World -> completion A * World.

Definition ret {A} (a : A) : M A := fun w => (Normal a, w).

Definition bind {A B} (c : M A) (k : A -> M B) : M B :=
  fun w =>
    match c w with
    | (Normal a, w') => k a w'
    | (Throw e, w') => (Throw e, w')
    | (ThrowTypeError, w') => (ThrowTypeError, w')
    | (Unmodelled, w') => (Unmodelled, w')
    end.

Declare Scope js_scope.
Delimit Scope js_scope with js.
Notation "x <~ c ;; k" := (bind c (fun x => k))
  (at level 100, c at next level, right associativity) : js_scope.
Notation "c ;; k" := (bind c (fun _ => k))
  (at level 100, right associativity) : js_scope.

Definition throw_Error {A} (message : string) : M A :=
  fun w => (Throw message, w).

Definition console_warn (message : string) : M unit :=
  fun w => (Normal tt, mkWorld (this w) (console w ++ [message])).

Definition get_this : M BusyIndicatorManager :=
  fun w => (Normal (this w), w).

Definition put_this (m : BusyIndicatorManager) : M unit :=
  fun w => (Normal tt, mkWorld m (console w)).

(** [this.states = s] *)
Definition assign_states (s : object) : M unit :=
  (self <~ get_this ;;
   put_this (mkManager s (strict self) (createOnGet self)))%js.

(** [this.strict = b] *)
Definition assign_strict (b : bool) : M unit :=
  (self <~ get_this ;;
   put_this (mkManager (states self) b (createOnGet self)))%js.

(** [this.createOnGet = b] *)
Definition assign_createOnGet (b : bool) : M unit :=
  (self <~ get_this ;;
   put_this (mkManager (states self) (strict self) b))%js.

(** A change of the object behind [this.states], which the object may
    refuse. *)
Definition change_states (change : object -> completion object) : M unit :=
  fun w =>
    match change (states (this w)) with
    | Normal obj => assign_states obj w
    | Throw e => (Throw e, w)
    | ThrowTypeError => (ThrowTypeError, w)
    | Unmodelled => (Unmodelled, w)
    end.

(** [this.states[key] = v] *)
Definition assign_property (key : string) (v : value) : M unit :=
  change_states (JS.assign_property key v).

(** [delete this.states[key]] *)
Definition delete_property (key : string) : M unit :=
  change_states (JS.delete_property key).

(** A conversion to a string inside a message. *)
Definition converted (printed : option string) : M string :=
  fun w =>
    match printed with
    | Some s => (Normal s, w)
    | None => (ThrowTypeError, w)
    end.

(** ** The class *)

(** [constructor()] *)
Definition constructor : BusyIndicatorManager := mkManager ∅ false true.

(** The messages; [current] and [fallbackValue] are the printed values. *)
Definition msg_already_registered (key current : string) : string :=
  "Key " +:+ JS.dq +:+ key +:+ JS.dq
    +:+ " is already registered and has value "
    +:+ JS.dq +:+ current +:+ JS.dq +:+ ".".

Definition msg_use_add (key : string) : string :=
  "Key " +:+ JS.dq +:+ key +:+ JS.dq +:+ " is not registered. Use "
    +:+ JS.dq +:+ "add" +:+ JS.dq +:+ " to register it first.".

Definition msg_registered_fallback (key fallbackValue : string) : string :=
  "Key " +:+ JS.dq +:+ key +:+ JS.dq
    +:+ " is not registered. Registered with fallback value: "
    +:+ fallbackValue.

Definition msg_not_registered (key : string) : string :=
  "Key " +:+ JS.dq +:+ key +:+ JS.dq +:+ " is not registered.".

(** [init(options?)] *)
Definition init (options : option InitOptions.t) : M unit :=
  (assign_states
     (JS.or_object (options ≫= InitOptions.initialStates) ∅) ;;
   assign_strict (JS.or_bool (options ≫= InitOptions.strict) false) ;;
   assign_createOnGet
     (JS.nullish_bool (options ≫= InitOptions.createOnGet) true))%js.

(** [add(key, initialState = false)].  The message is built, and the
    current value printed, before [console.warn] is called. *)
Definition add (key : string) (initialState : option value) : M unit :=
  let initialState := JS.default_param initialState (VBool false) in
  (self <~ get_this ;;
   if negb (JS.key_in key (states self))
   then assign_property key initialState
   else
     current <~ converted (JS.template (JS.index (states self) key)) ;;
     console_warn (msg_already_registered key current))%js.

(** [remove(key)] *)
Definition remove (key : string) : M unit :=
  (self <~ get_this ;;
   (if strict self && negb (JS.key_in key (states self))
    then
      let error := msg_use_add key in
      console_warn error ;; throw_Error error
    else ret tt) ;;
   self <~ get_this ;;
   if JS.key_in key (states self)
   then delete_property key
   else ret tt)%js.

(** [set(key, value = true)] *)
Definition set (key : string) (value : option value) : M unit :=
  let value := JS.default_param value (VBool true) in
  (self <~ get_this ;;
   (if strict self && negb (JS.key_in key (states self))
    then
      let error := msg_use_add key in
      console_warn error ;; throw_Error error
    else ret tt) ;;
   assign_property key value)%js.

(** [get(key, fallbackValue = false)] *)
Definition get (key : string) (fallbackValue : option value) : M value :=
  let fallbackValue := JS.default_param fallbackValue (VBool false) in
  (self <~ get_this ;;
   if strict self && negb (JS.key_in key (states self))
   then
     if createOnGet self
     then
       add key (Some fallbackValue) ;;
       printed <~ converted (JS.to_String fallbackValue) ;;
       console_warn (msg_registered_fallback key printed) ;;
       ret fallbackValue
     else
       let error := msg_not_registered key in
       console_warn error ;; throw_Error error
   else
     self <~ get_this ;;
     ret (JS.nullish_coalesce (JS.index (states self) key) (VBool false)))%js.

(** ** Running calls *)

(** The result of a call and the world it leaves. *)
Definition outcome {A} (c : M A) (w : World) : completion A := fst (c w).
Definition after {A} (c : M A) (w : World) : World := snd (c w).

(** Where the outcome of a change of [states] sends a world. *)
Definition settle (change : completion object) (w : World)
    : completion unit * World :=
  match change with
  | Normal obj =>
      (Normal tt,
       mkWorld (mkManager obj (strict (this w)) (createOnGet (this w)))
         (console w))
  | Throw e => (Throw e, w)
  | ThrowTypeError => (ThrowTypeError, w)
  | Unmodelled => (Unmodelled, w)
  end.

(** A world with a given instance and an empty console. *)
Definition fresh (m : BusyIndicatorManager) : World := mkWorld m [].

(** The literal [{ ... }] with the given own properties. *)
Definition literal (properties : gmap string value) : object :=
  mkObject (plain <$> properties) ObjectPrototype true.

(** ** The exported instance and the set-ups of the test suite *)

(** [const isBusy = new BusyIndicatorManager()], with nothing on the
    console yet. *)
Definition isBusy : World := fresh constructor.

(** [isBusy.init({ strict: true, createOnGet: false })] *)
Definition strict_world : World :=
  after (init (Some (InitOptions.mk (Some true) (Some false) None))) isBusy.

(** [isBusy.init({ createOnGet: true, strict: true })] *)
Definition creating_world : World :=
  after (init (Some (InitOptions.mk (Some true) (Some true) None))) isBusy.

(** [isBusy.init({ strict: true, createOnGet: false, initialStates:
    { a: null, b: "s", c: undefined } })] *)
Definition preloaded_world : World :=
  after
    (init
       (Some
          (InitOptions.mk (Some true) (Some false)
             (Some
                (literal
                   {["a" := VNull; "b" := VStr "s"; "c" := VUndefined]})))))
    isBusy.

(** [isBusy.init({ strict: true, initialStates:
    Object.freeze({ a: "s" }) })] *)
Definition frozen_world : World :=
  after
    (init
       (Some
          (InitOptions.mk (Some true) None
             (Some (JS.Object_freeze (literal {["a" := VStr "s"]}))))))
    isBusy.

(** [isBusy.init({ initialStates: { id: Symbol("id") } })] *)
Definition symbol_world : World :=
  after
    (init
       (Some
          (InitOptions.mk None None
             (Some (literal {["id" := VSymbol "id"]})))))
    isBusy.

(** [isBusy.init({ initialStates: Object.create({ loading: true }) })] *)
Definition derived_world : World :=
  after
    (init
       (Some
          (InitOptions.mk None None
             (Some
                (mkObject ∅
                   (Extends (Some "[object Object]")
                      {["loading" := plain (VBool true)]} ObjectPrototype)
                   true)))))
    isBusy.

(** ** Predicates on worlds *)

(** What a call on one key leaves alone: the two switches and the entry of
    every other key. *)
Definition untouched (other : string) (w w' : World) : Prop :=
  strict (this w') = strict (this w)
  ∧ createOnGet (this w') = createOnGet (this w)
  ∧ states (this w') !! other = states (this w) !! other.

(** No registered key holds [undefined]. *)
Definition no_undefined_entry (w : World) : Prop :=
  ∀ key, states (this w) !! key ≠ Some VUndefined.

(** A call wrote at most one message and kept what was on the console. *)
Definition appended_at_most_one (w w' : World) : Prop :=
  ∃ written : list string,
    console w' = (console w ++ written)%list ∧ (length written ≤ 1)%nat.

(** ** The earlier revision of the class, with one switch

    This revision has the single switch [enforceRegistration] and never
    throws an error of its own: [set] and [get] on an unregistered key
    only warn, [remove] deletes without looking, [add] is silent on a
    duplicate, and [get] takes no fallback.  It uses the same object
    operations, so [add], [remove] and [set] can end in the engine's
    [TypeError]. *)
Module Earlier.

Module InitOptions.
Record t : Type := mk {
  enforceRegistration : option bool;
  initialStates : option object
}.
End InitOptions.

Record Manager : Type := mkManager {
  states : object;
  enforceRegistration : bool
}.

Record World : Type := mkWorld {
  this : Manager;
  console : list string
}.

(** [constructor()] *)
Definition constructor : Manager := mkManager ∅ false.

Definition msg_use_register (key : string) : string :=
  "Key " +:+ JS.dq +:+ key +:+ JS.dq +:+ " is not registered. Use "
    +:+ JS.dq +:+ "register" +:+ JS.dq +:+ " to register it first.".

(** A change of the object behind [this.states]. *)
Definition change_states (change : completion object) (w : World)
    : completion unit * World :=
  match change with
  | Normal obj =>
      (Normal tt,
       mkWorld (mkManager obj (enforceRegistration (this w))) (console w))
  | Throw e => (Throw e, w)
  | ThrowTypeError => (ThrowTypeError, w)
  | Unmodelled => (Unmodelled, w)
  end.

(** [init(options?)] *)
Definition init (options : option InitOptions.t) (w : World) : World :=
  let s := JS.or_object (options ≫= InitOptions.initialStates) ∅ in
  let e := JS.or_bool (options ≫= InitOptions.enforceRegistration) false in
  mkWorld (mkManager s e) (console w).

(** [add(key, initialState = false)] *)
Definition add (key : string) (initialState : option value) (w : World)
    : completion unit * World :=
  let initialState := JS.default_param initialState (VBool false) in
  if negb (JS.key_in key (states (this w)))
  then change_states
         (JS.assign_property key initialState (states (this w))) w
  else (Normal tt, w).

(** [remove(key)] *)
Definition remove (key : string) (w : World) : completion unit * World :=
  change_states (JS.delete_property key (states (this w))) w.

(** [set(key, value = true)] *)
Definition set (key : string) (value : option value) (w : World)
    : completion unit * World :=
  let value := JS.default_param value (VBool true) in
  if enforceRegistration (this w) && negb (JS.key_in key (states (this w)))
  then (Normal tt, mkWorld (this w) (console w ++ [msg_use_register key]))
  else change_states (JS.assign_property key value (states (this w))) w.

(** [get(key)] *)
Definition get (key : string) (w : World) : value * World :=
  if enforceRegistration (this w) && negb (JS.key_in key (states (this w)))
  then (VBool false,
        mkWorld (this w) (console w ++ [msg_not_registered key]))
  else (JS.nullish_coalesce (JS.index (states (this w)) key) (VBool false),
        w).

End Earlier.

(** The two revisions hold the same entries and the switch of the earlier
    one is [strict] of the current one. *)
Definition same_registry (old : Earlier.World) (new : World)
    : Prop :=
  Earlier.states (Earlier.this old)
    = states (this new)
  ∧ Earlier.enforceRegistration (Earlier.this old)
    = strict (this new).

(** ** Facts about values and the object operations *)

Lemma default_param_defined (v d : value) :
  v ≠ VUndefined → JS.default_param (Some v) d = v.
Proof. intros Hv. destruct v; simpl; congruence. Qed.

Lemma default_param_never_undefined (arg : option value) (d : value) :
  d ≠ VUndefined → JS.default_param arg d ≠ VUndefined.
Proof. intros Hd. destruct arg as [[]|]; simpl; congruence. Qed.

Lemma nullish_coalesce_not_nullish (a : value) :
  JS.is_nullish (JS.nullish_coalesce a (VBool false)) = false.
Proof. destruct a; reflexivity. Qed.

Lemma nullish_coalesce_idemp (v : value) :
  JS.nullish_coalesce (JS.nullish_coalesce v (VBool false)) (VBool false)
  = JS.nullish_coalesce v (VBool false).
Proof. by destruct v. Qed.

Lemma own_lookup_None (obj : object) key :
  obj !! key = None ↔ own obj !! key = None.
Proof. apply fmap_None. Qed.

Lemma own_lookup_Some (obj : object) key v :
  obj !! key = Some v ↔ ∃ s, own obj !! key = Some s ∧ held s = v.
Proof.
  unfold lookup at 1, object_lookup. rewrite fmap_Some.
  split; intros (s & Hs & Hv); by exists s.
Qed.

Lemma object_lookup_insert_eq (obj : object) key v :
  (<[key := v]> obj) !! key = Some v.
Proof.
  apply own_lookup_Some. unfold insert at 1, object_insert. cbn [own].
  rewrite lookup_insert_eq. destruct (own obj !! key); by eexists.
Qed.

Lemma object_lookup_insert_ne (obj : object) key other v :
  key ≠ other → (<[key := v]> obj) !! other = obj !! other.
Proof.
  intros Hne. unfold lookup, object_lookup, insert at 1, object_insert.
  cbn [own]. by rewrite lookup_insert_ne.
Qed.

Lemma object_lookup_delete_eq (obj : object) key :
  delete key obj !! key = None.
Proof. apply own_lookup_None, (lookup_delete_eq (own obj)). Qed.

Lemma object_lookup_delete_ne (obj : object) key other :
  key ≠ other → delete key obj !! other = obj !! other.
Proof.
  intros Hne. unfold lookup, object_lookup, delete at 1, object_delete.
  cbn [own]. by rewrite lookup_delete_ne.
Qed.

Lemma object_lookup_empty key : (∅ : object) !! key = None.
Proof. apply own_lookup_None, (lookup_empty (M := gmap string)). Qed.

Lemma object_eta (obj : object) :
  mkObject (own obj) (proto obj) (extensible obj) = obj.
Proof. by destruct obj. Qed.

Lemma object_delete_insert (obj : object) key v :
  obj !! key = None → delete key (<[key := v]> obj) = obj.
Proof.
  intros Hk%own_lookup_None. destruct obj as [o p e].
  unfold delete, object_delete, insert, object_insert. simpl in *. f_equal.
  by apply delete_insert_id.
Qed.

Lemma object_delete_absent (obj : object) key :
  obj !! key = None → delete key obj = obj.
Proof.
  intros Hk%own_lookup_None. destruct obj as [o p e].
  unfold delete, object_delete. simpl in *. f_equal. by apply delete_id.
Qed.

Lemma object_insert_insert (obj : object) key v v' :
  <[key := v']> (<[key := v]> obj) = <[key := v']> obj.
Proof.
  destruct obj as [o p e]. unfold insert, object_insert. simpl. f_equal.
  rewrite lookup_insert_eq, insert_insert_eq. by destruct (o !! key).
Qed.

(** [key in obj] holds for an own property, and fails exactly when the
    name is neither own nor inherited. *)
Lemma key_in_own (obj : object) key v :
  obj !! key = Some v → JS.key_in key obj = true.
Proof. intros Hk. unfold JS.key_in. by rewrite Hk. Qed.

Lemma key_in_false (obj : object) key :
  JS.key_in key obj = false ↔
  obj !! key = None ∧ JS.inherited obj key = Absent.
Proof.
  unfold JS.key_in. destruct (obj !! key) as [v|].
  - split; [discriminate | intros [? _]; discriminate].
  - destruct (JS.inherited obj key); split; try done;
      intros [_ ?]; discriminate.
Qed.

Lemma key_in_insert (obj : object) key v :
  JS.key_in key (<[key := v]> obj) = true.
Proof. apply (key_in_own _ key v), object_lookup_insert_eq. Qed.

Lemma index_own (obj : object) key v :
  obj !! key = Some v → JS.index obj key = v.
Proof. intros Hk. unfold JS.index. by rewrite Hk. Qed.

Lemma index_not_in (obj : object) key :
  JS.key_in key obj = false → JS.index obj key = VUndefined.
Proof.
  intros [Hk Hi]%key_in_false. unfold JS.index. by rewrite Hk, Hi.
Qed.

Lemma inherited_insert (obj : object) key other v :
  JS.inherited (<[key := v]> obj) other = JS.inherited obj other.
Proof. reflexivity. Qed.

Lemma inherited_delete (obj : object) key other :
  JS.inherited (delete key obj) other = JS.inherited obj other.
Proof. reflexivity. Qed.

(** A name that is not in the object is created by an assignment if the
    object is extensible and refused otherwise. *)
Lemma assign_new key v obj :
  JS.key_in key obj = false →
  JS.assign_property key v obj =
    if extensible obj then Normal (<[key := v]> obj) else ThrowTypeError.
Proof.
  intros [Hk%own_lookup_None Hi]%key_in_false.
  unfold JS.assign_property, JS.assignment_of. rewrite Hk, Hi.
  by destruct (extensible obj).
Qed.

Lemma assign_creates (obj : object) key v :
  JS.key_in key obj = false → extensible obj = true →
  JS.assign_property key v obj = Normal (<[key := v]> obj).
Proof. intros Hin He. by rewrite assign_new, He. Qed.

Lemma assign_stores (obj : object) key v :
  JS.stores key obj = true →
  JS.assign_property key v obj = Normal (<[key := v]> obj).
Proof.
  unfold JS.stores, JS.assign_property.
  by destruct (JS.assignment_of key obj).
Qed.

(** On an own property the assignment stores or is refused, whatever the
    value, and the deletion likewise. *)
Lemma assign_own (obj : object) key v current :
  obj !! key = Some current →
  JS.assign_property key v obj =
    if JS.stores key obj then Normal (<[key := v]> obj) else ThrowTypeError.
Proof.
  intros (s & Hk & _)%own_lookup_Some.
  unfold JS.stores, JS.assign_property, JS.assignment_of. rewrite Hk.
  by destruct (writable s).
Qed.

Lemma delete_own (obj : object) key current :
  obj !! key = Some current →
  JS.delete_property key obj =
    if JS.deletes key obj then Normal (delete key obj) else ThrowTypeError.
Proof.
  intros (s & Hk & _)%own_lookup_Some.
  unfold JS.deletes, JS.delete_property. by rewrite Hk.
Qed.

Lemma delete_absent (obj : object) key :
  obj !! key = None → JS.delete_property key obj = Normal obj.
Proof.
  intros Hk%own_lookup_None. unfold JS.delete_property. by rewrite Hk.
Qed.

(** What a successful assignment or deletion leaves: every other own
    property, and under the key either the value assigned or what was
    there. *)
Lemma assign_result (obj obj' : object) key v :
  JS.assign_property key v obj = Normal obj' →
  extensible obj' = extensible obj
  ∧ (∀ other, other ≠ key → obj' !! other = obj !! other)
  ∧ (obj' !! key = Some v ∨ obj' !! key = obj !! key).
Proof.
  unfold JS.assign_property.
  destruct (JS.assignment_of key obj); intros Hr; simplify_eq.
  - split; [done|]. split; [|left; apply object_lookup_insert_eq].
    intros other Hne. by apply object_lookup_insert_ne.
  - split; [done|]. split; [|left; apply object_lookup_insert_eq].
    intros other Hne. by apply object_lookup_insert_ne.
  - destruct v; simplify_eq; try (by repeat split; [..|right]).
    destruct (extensible obj) eqn:He; simplify_eq. simpl.
    split; [done|]. split; [done|]. by right.
Qed.

Lemma delete_result (obj obj' : object) key :
  JS.delete_property key obj = Normal obj' →
  extensible obj' = extensible obj
  ∧ proto obj' = proto obj
  ∧ obj' !! key = None
  ∧ (∀ other, other ≠ key → obj' !! other = obj !! other).
Proof.
  unfold JS.delete_property. destruct (own obj !! key) as [s|] eqn:Hk.
  - destruct (configurable s); intros Hr; simplify_eq.
    split; [done|]. split; [done|].
    split; [apply object_lookup_delete_eq|].
    intros other Hne. by apply object_lookup_delete_ne.
  - intros Hr. simplify_eq. by rewrite own_lookup_None.
Qed.

(** ** One equation per method *)

Ltac unfold_effects :=
  unfold assign_property, delete_property, change_states, converted,
    assign_states, assign_strict, assign_createOnGet, put_this, get_this,
    console_warn, throw_Error, bind, ret; simpl.

Ltac open_world w :=
  let st := fresh "st" in
  let sm := fresh "sm" in
  let cg := fresh "cg" in
  let out := fresh "out" in
  destruct w as [[st sm cg] out]; simpl in *.

Lemma assign_property_eq key v w :
  assign_property key v w
  = settle (JS.assign_property key v (states (this w))) w.
Proof.
  open_world w. unfold settle. unfold_effects.
  by destruct (JS.assign_property key v st).
Qed.

Lemma delete_property_eq key w :
  delete_property key w
  = settle (JS.delete_property key (states (this w))) w.
Proof.
  open_world w. unfold settle. unfold_effects.
  by destruct (JS.delete_property key st).
Qed.

Lemma add_eq key x w :
  add key x w =
    if JS.key_in key (states (this w))
    then
      match JS.template (JS.index (states (this w)) key) with
      | Some current =>
          (Normal tt,
           mkWorld (this w)
             (console w ++ [msg_already_registered key current]))
      | None => (ThrowTypeError, w)
      end
    else
      settle
        (JS.assign_property key (JS.default_param x (VBool false))
           (states (this w))) w.
Proof.
  rewrite <- assign_property_eq. open_world w. unfold add.
  unfold get_this, converted, console_warn, bind at 1 2. simpl.
  destruct (JS.key_in key st); simpl; [|done].
  by destruct (JS.template (JS.index st key)).
Qed.

Lemma remove_eq key w :
  remove key w =
    if strict (this w) && negb (JS.key_in key (states (this w)))
    then (Throw (msg_use_add key),
          mkWorld (this w) (console w ++ [msg_use_add key]))
    else if JS.key_in key (states (this w))
         then settle (JS.delete_property key (states (this w))) w
         else (Normal tt, w).
Proof.
  rewrite <- delete_property_eq. open_world w. unfold remove.
  unfold get_this, console_warn, throw_Error, ret, bind. simpl.
  destruct (sm && negb (JS.key_in key st)); simpl; [done|].
  by destruct (JS.key_in key st).
Qed.

Lemma set_eq key x w :
  set key x w =
    if strict (this w) && negb (JS.key_in key (states (this w)))
    then (Throw (msg_use_add key),
          mkWorld (this w) (console w ++ [msg_use_add key]))
    else settle
           (JS.assign_property key (JS.default_param x (VBool true))
              (states (this w))) w.
Proof.
  rewrite <- assign_property_eq. open_world w. unfold set.
  unfold get_this, console_warn, throw_Error, ret, bind. simpl.
  by destruct (sm && negb (JS.key_in key st)).
Qed.

Lemma get_eq key fb w :
  get key fb w =
    let used := JS.default_param fb (VBool false) in
    if strict (this w) && negb (JS.key_in key (states (this w)))
    then
      if createOnGet (this w)
      then
        match settle (JS.assign_property key used (states (this w))) w with
        | (Normal _, w1) =>
            match JS.to_String used with
            | Some printed =>
                (Normal used,
                 mkWorld (this w1)
                   (console w1 ++ [msg_registered_fallback key printed]))
            | None => (ThrowTypeError, w1)
            end
        | (Throw e, w1) => (Throw e, w1)
        | (ThrowTypeError, w1) => (ThrowTypeError, w1)
        | (Unmodelled, w1) => (Unmodelled, w1)
        end
      else (Throw (msg_not_registered key),
            mkWorld (this w) (console w ++ [msg_not_registered key]))
    else (Normal
            (JS.nullish_coalesce (JS.index (states (this w)) key)
               (VBool false)),
          w).
Proof.
  cbv zeta. unfold get. unfold bind at 1, get_this at 1.
  destruct (strict (this w) && negb (JS.key_in key (states (this w))))
    eqn:Hpath; [|by destruct w].
  destruct (createOnGet (this w)); [|by destruct w].
  apply andb_prop in Hpath as [_ Hin%negb_true_iff].
  unfold bind at 1. rewrite add_eq, Hin.
  assert (Hused : JS.default_param
                    (Some (JS.default_param fb (VBool false))) (VBool false)
                  = JS.default_param fb (VBool false))
    by (by destruct fb as [[]|]).
  rewrite Hused.
  destruct (settle _ w) as [[] w1]; try done.
  unfold converted, console_warn, ret, bind.
  by destruct (JS.to_String (JS.default_param fb (VBool false))).
Qed.

Lemma init_eq options w :
  init options w =
    (Normal tt,
     mkWorld
       (mkManager
          (JS.or_object (options ≫= InitOptions.initialStates) ∅)
          (JS.or_bool (options ≫= InitOptions.strict) false)
          (JS.nullish_bool (options ≫= InitOptions.createOnGet) true))
       (console w)).
Proof. open_world w. unfold init. unfold_effects. done. Qed.

Lemma world_eta w : mkWorld (this w) (console w) = w.
Proof. by destruct w. Qed.

Lemma manager_eta m : mkManager (states m) (strict m) (createOnGet m) = m.
Proof. by destruct m. Qed.

Lemma not_proto_accessor (obj : object) key :
  key ≠ "__proto__" → JS.inherited obj key ≠ ProtoAccessor.
Proof.
  intros Hne. unfold JS.inherited.
  induction (proto obj) as [| |printed members next IH]; simpl; [|done|].
  - unfold JS.Object_prototype_property.
    destruct (decide (key = "__proto__")); [done|].
    by destruct (decide (key ∈ JS.Object_prototype_names)).
  - by destruct (members !! key).
Qed.

(** Case analysis on everything a call on [key] in [w] looks at. *)
Ltac calls :=
  rewrite ?add_eq, ?remove_eq, ?set_eq, ?get_eq, ?init_eq; cbv zeta.

(** ** Further facts about the object operations and [settle] *)

Lemma assign_never_Throw key v obj e :
  JS.assign_property key v obj ≠ Throw e.
Proof.
  unfold JS.assign_property.
  destruct (JS.assignment_of key obj); try done.
  destruct v; try done. by destruct (extensible obj).
Qed.

Lemma delete_never_Throw key obj e : JS.delete_property key obj ≠ Throw e.
Proof.
  unfold JS.delete_property. destruct (own obj !! key) as [s|]; [|done].
  by destruct (configurable s).
Qed.

Lemma settle_console change w : console (settle change w).2 = console w.
Proof. by destruct change. Qed.

Lemma settle_flags change w :
  strict (this (settle change w).2) = strict (this w)
  ∧ createOnGet (this (settle change w).2) = createOnGet (this w).
Proof. by destruct change. Qed.

Lemma settle_Throw change w e :
  (settle change w).1 = Throw e → change = Throw e.
Proof. by destruct change; intros [=]; subst. Qed.

Lemma settle_abrupt change w :
  (settle change w).1 ≠ Normal tt → (settle change w).2 = w.
Proof. by destruct change. Qed.

(** On a name other than [__proto__] an assignment either stores an own
    property, whatever the value, or is refused, whatever the value. *)
Lemma assign_cases key obj :
  key ≠ "__proto__" →
  (JS.stores key obj = true
   ∧ ∀ v, JS.assign_property key v obj = Normal (<[key := v]> obj))
  ∨ (JS.stores key obj = false
     ∧ ∀ v, JS.assign_property key v obj = ThrowTypeError).
Proof.
  intros Hne. pose proof (not_proto_accessor obj key Hne) as Hacc.
  unfold JS.stores, JS.assign_property, JS.assignment_of in *.
  destruct (own obj !! key) as [s|].
  - destruct (writable s); [left | right]; by split.
  - destruct (JS.inherited obj key) as [|v [|]|]; [| | |done];
      try (right; by split);
      (destruct (extensible obj); [left | right]; by split).
Qed.

(** A property that an assignment has created can be deleted. *)
Lemma deletes_insert_new (obj : object) key v :
  obj !! key = None → JS.deletes key (<[key := v]> obj) = true.
Proof.
  intros Hk%own_lookup_None.
  unfold JS.deletes, insert at 1, object_insert. cbn [own].
  by rewrite lookup_insert_eq, Hk.
Qed.

(** A stored property is writable, so the next assignment stores too. *)
Lemma stores_insert key obj v :
  JS.stores key obj = true → JS.stores key (<[key := v]> obj) = true.
Proof.
  unfold JS.stores, JS.assignment_of, insert at 1, object_insert.
  cbn [own]. rewrite lookup_insert_eq.
  destruct (own obj !! key) as [s|]; simpl; [|done].
  by destruct (writable s).
Qed.

(** When a method throws the class's error. *)
Lemma add_Throw_inv key x w e : outcome (add key x) w ≠ Throw e.
Proof.
  unfold outcome. calls. destruct (JS.key_in key (states (this w))).
  - by destruct (JS.template _).
  - intros H%settle_Throw. by apply assign_never_Throw in H.
Qed.

Lemma remove_Throw_iff key w e :
  outcome (remove key) w = Throw e ↔
  strict (this w) = true ∧ JS.key_in key (states (this w)) = false
  ∧ e = msg_use_add key.
Proof.
  unfold outcome. calls.
  destruct (strict (this w)), (JS.key_in key (states (this w))) eqn:Hin;
    simpl; split; try (by intros (? & ? & ?)); try (by intros [= <-]);
    try (by intros (_ & _ & ->));
    by intros H%settle_Throw%delete_never_Throw.
Qed.

Lemma set_Throw_iff key x w e :
  outcome (set key x) w = Throw e ↔
  strict (this w) = true ∧ JS.key_in key (states (this w)) = false
  ∧ e = msg_use_add key.
Proof.
  unfold outcome. calls.
  destruct (strict (this w)), (JS.key_in key (states (this w))) eqn:Hin;
    simpl; split; try (by intros (? & ? & ?)); try (by intros [= <-]);
    try (by intros (_ & _ & ->));
    by intros H%settle_Throw%assign_never_Throw.
Qed.

Lemma get_Throw_iff key fb w e :
  outcome (get key fb) w = Throw e ↔
  strict (this w) = true ∧ createOnGet (this w) = false
  ∧ JS.key_in key (states (this w)) = false
  ∧ e = msg_not_registered key.
Proof.
  unfold outcome. calls.
  destruct (strict (this w)), (JS.key_in key (states (this w))) eqn:Hin;
    simpl; try (split; [done | by intros (? & ? & ? & ?)]).
  destruct (createOnGet (this w)).
  - split; [|by intros (? & ? & ? & ?)].
    destruct (JS.assign_property _ _ _) eqn:Hr; simpl; try done.
    + by destruct (JS.to_String _).
    + by apply assign_never_Throw in Hr.
  - simpl. split; [by intros [= <-] | by intros (_ & _ & _ & ->)].
Qed.

(** ** Strict mode and names the object inherits *)

(** C1.  The code departs from its documentation, which has [set] and
    [remove] throw when strict mode is enabled and the key does not exist.
    In strict mode, with no entries at all, [set] on the name [toString]
    returns normally, writes no warning and stores the value, and [remove]
    on the name [hasOwnProperty] returns normally: [key in this.states]
    also finds what the object inherits from [Object.prototype]. *)
Theorem strict_write_on_inherited_name :
  strict (this strict_world) = true
  ∧ states (this strict_world) !! "toString" = None
  ∧ outcome (set "toString" (Some (VBool true))) strict_world = Normal tt
  ∧ states (this (after (set "toString" (Some (VBool true))) strict_world))
      !! "toString" = Some (VBool true)
  ∧ console (after (set "toString" (Some (VBool true))) strict_world) = []
  ∧ states (this strict_world) !! "hasOwnProperty" = None
  ∧ remove "hasOwnProperty" strict_world = (Normal tt, strict_world).
Proof. vm_compute. by repeat split. Qed.

(** ** Reading an unregistered key in strict mode with [createOnGet] *)

(** With a [null] fallback the first [get] hands the [null] back and stores
    it, and the next [get] reads the stored [null] through [?? false]: it
    returns [false], not the fallback. *)
Lemma get_null_fallback_then_false :
  strict (this creating_world) = true
  ∧ createOnGet (this creating_world) = true
  ∧ states (this creating_world) !! "newTask" = None
  ∧ outcome (get "newTask" (Some VNull)) creating_world = Normal VNull
  ∧ states (this (after (get "newTask" (Some VNull)) creating_world))
      !! "newTask" = Some VNull
  ∧ outcome (get "newTask" None)
      (after (get "newTask" (Some VNull)) creating_world)
      = Normal (VBool false)
  ∧ outcome (get "newTask" None)
      (after (get "newTask" (Some VNull)) creating_world)
      ≠ Normal VNull.
Proof. vm_compute. repeat split; discriminate. Qed.

(** C2 (amended).  In strict mode with [createOnGet], on a key that the
    registry object neither holds nor inherits, an extensible registry
    object and a fallback that [String] can print, [get key fb] registers
    the key with the fallback, warns about it and returns the fallback,
    where an omitted or [undefined] fallback stands for [false].  A
    following [get key] without fallback changes nothing and returns the
    same value again, unless the fallback was [null]: then it returns
    [false]. *)
Theorem get_create_on_get key fb printed w :
  strict (this w) = true →
  createOnGet (this w) = true →
  JS.key_in key (states (this w)) = false →
  extensible (states (this w)) = true →
  let used := JS.default_param fb (VBool false) in
  JS.to_String used = Some printed →
  let w' :=
    mkWorld (mkManager (<[key := used]> (states (this w))) true true)
      (console w ++ [msg_registered_fallback key printed]) in
  get key fb w = (Normal used, w')
  ∧ (fb = None ∨ fb = Some VUndefined → used = VBool false)
  ∧ (∀ v, fb = Some v → v ≠ VUndefined → used = v)
  ∧ (used ≠ VNull → get key None w' = (Normal used, w'))
  ∧ (used = VNull → get key None w' = (Normal (VBool false), w')).
Proof.
  intros Hs Hc Hin Hl used Hp w'.
  assert (Hused : used ≠ VUndefined)
    by (apply default_param_never_undefined; discriminate).
  split.
  { calls. rewrite Hs, Hc, Hin. simpl.
    rewrite assign_creates by done. simpl. fold used. by rewrite Hp, Hs, Hc. }
  split; [by intros [-> | ->]|].
  split; [intros v -> Hv; by apply default_param_defined|].
  assert (Hagain : get key None w'
                   = (Normal (JS.nullish_coalesce used (VBool false)), w')).
  { calls. subst w'. simpl. rewrite key_in_insert. simpl.
    by rewrite (index_own _ key used) by apply object_lookup_insert_eq. }
  rewrite Hagain. split; intros Hn; [by destruct used | by rewrite Hn].
Qed.

(** The two tests "with createOnGet enabled", and the [null] fallback. *)
Lemma get_create_on_get_witness :
  (strict (this creating_world) = true
   ∧ createOnGet (this creating_world) = true
   ∧ JS.key_in "newTask" (states (this creating_world)) = false
   ∧ extensible (states (this creating_world)) = true)
  ∧ (let w' :=
       mkWorld
         (mkManager (literal {["newTask" := VStr "newState"]}) true true)
         [msg_registered_fallback "newTask" "newState"] in
     get "newTask" (Some (VStr "newState")) creating_world
       = (Normal (VStr "newState"), w')
     ∧ get "newTask" None w' = (Normal (VStr "newState"), w'))
  ∧ (let w' :=
       mkWorld (mkManager (literal {["newTask" := VBool false]}) true true)
         [msg_registered_fallback "newTask" "false"] in
     get "newTask" None creating_world = (Normal (VBool false), w')
     ∧ get "newTask" None w' = (Normal (VBool false), w'))
  ∧ (let w' :=
       mkWorld (mkManager (literal {["newTask" := VNull]}) true true)
         [msg_registered_fallback "newTask" "null"] in
     get "newTask" (Some VNull) creating_world = (Normal VNull, w')
     ∧ get "newTask" None w' = (Normal (VBool false), w')).
Proof.
  split; [repeat split|].
  split; [|split].
  - destruct (get_create_on_get "newTask" (Some (VStr "newState"))
                "newState" creating_world
                eq_refl eq_refl eq_refl eq_refl eq_refl)
      as (Hfirst & _ & Hused & Hagain & _).
    split; [exact Hfirst|].
    apply Hagain.
    rewrite (Hused (VStr "newState") eq_refl); discriminate.
  - destruct (get_create_on_get "newTask" None "false"
                creating_world eq_refl eq_refl eq_refl eq_refl eq_refl)
      as (Hfirst & Hused & _ & Hagain & _).
    split; [exact Hfirst|].
    apply Hagain. rewrite Hused; [discriminate | by left].
  - destruct (get_create_on_get "newTask" (Some VNull) "null"
                creating_world eq_refl eq_refl eq_refl eq_refl eq_refl)
      as (Hfirst & _ & _ & _ & Hnull).
    split; [exact Hfirst|].
    apply Hnull. reflexivity.
Defined.

(** ** What [get] returns *)

(** In strict mode with [createOnGet], [get] on an unregistered key returns
    the caller's fallback as it is: a [null] fallback comes back as
    [null]. *)
Lemma get_can_return_null :
  outcome (get "newTask" (Some VNull)) creating_world = Normal VNull
  ∧ JS.is_nullish VNull = true
  ∧ ¬ (∀ key fb w r,
         outcome (get key fb) w = Normal r → JS.is_nullish r = false).
Proof.
  split; [reflexivity|]. split; [reflexivity|].
  intros H.
  specialize (H "newTask" (Some VNull) creating_world VNull eq_refl).
  discriminate H.
Qed.

(** C3 (amended).  [get] on a key present in [states] returns the stored
    value, except that a stored [null] or [undefined] is read as [false];
    the call changes nothing.  No call to [get] returns [undefined], and
    the only call that returns [null] is the one in strict mode with
    [createOnGet] on an unregistered key with a [null] fallback. *)
Theorem get_result key fb w :
  (∀ v, states (this w) !! key = Some v →
        get key fb w =
          (Normal (if JS.is_nullish v then VBool false else v), w))
  ∧ (∀ r, outcome (get key fb) w = Normal r →
          r ≠ VUndefined
          ∧ (r = VNull →
             strict (this w) = true ∧ createOnGet (this w) = true
             ∧ states (this w) !! key = None ∧ fb = Some VNull)).
Proof.
  split.
  - intros v Hk. calls.
    rewrite (key_in_own _ key v Hk), andb_false_r.
    by rewrite (index_own _ key v Hk).
  - intros r. unfold outcome. calls.
    destruct (strict (this w) && negb (JS.key_in key (states (this w))))
      eqn:Hpath.
    2:{ simpl. intros [= <-].
        split; by destruct (JS.index (states (this w)) key). }
    apply andb_prop in Hpath as [Hs Hin%negb_true_iff].
    apply key_in_false in Hin as [Hk _].
    destruct (createOnGet (this w)); [|done].
    destruct (settle _ w) as [[] w1]; try done.
    destruct (JS.to_String _); [|done]. simpl. intros [= <-].
    split.
    + apply default_param_never_undefined. discriminate.
    + intros Hn. repeat split; try done. by destruct fb as [[]|].
Qed.

Lemma get_result_witness :
  (states (this preloaded_world) !! "a" = Some VNull
   ∧ get "a" None preloaded_world = (Normal (VBool false), preloaded_world))
  ∧ (states (this preloaded_world) !! "b" = Some (VStr "s")
     ∧ get "b" None preloaded_world = (Normal (VStr "s"), preloaded_world))
  ∧ (states (this preloaded_world) !! "c" = Some VUndefined
     ∧ get "c" None preloaded_world = (Normal (VBool false), preloaded_world))
  ∧ (outcome (get "b" None) preloaded_world = Normal (VStr "s")
     ∧ VStr "s" ≠ VUndefined)
  ∧ (outcome (get "newTask" (Some VNull)) creating_world = Normal VNull
     ∧ strict (this creating_world) = true
     ∧ createOnGet (this creating_world) = true
     ∧ states (this creating_world) !! "newTask" = None).
Proof.
  split; [split; [reflexivity|]
         | split; [split; [reflexivity|]
                  | split; [split; [reflexivity|]
                           | split; [split; [reflexivity|]
                                    | split; [reflexivity|]]]]].
  - exact (proj1 (get_result "a" None preloaded_world) VNull eq_refl).
  - exact (proj1 (get_result "b" None preloaded_world) (VStr "s") eq_refl).
  - exact (proj1 (get_result "c" None preloaded_world) VUndefined eq_refl).
  - exact (proj1 (proj2 (get_result "b" None preloaded_world)
                    (VStr "s") eq_refl)).
  - destruct (proj2 (proj2 (get_result "newTask" (Some VNull) creating_world)
                       VNull eq_refl) eq_refl) as (Hs & Hc & Hk & _).
    split; [exact Hs|]. split; [exact Hc | exact Hk].
Defined.

(** ** Writing and reading back without strict mode *)

(** [set] declares [value = true], so an [undefined] argument is replaced
    by [true] before it is stored, and [get] reads [true] back. *)
Lemma set_undefined_then_get_true :
  strict (this isBusy) = false
  ∧ outcome (set "task" (Some VUndefined)) isBusy = Normal tt
  ∧ states (this (after (set "task" (Some VUndefined)) isBusy)) !! "task"
      = Some (VBool true)
  ∧ outcome (get "task" None) (after (set "task" (Some VUndefined)) isBusy)
      = Normal (VBool true)
  ∧ outcome (get "task" None) (after (set "task" (Some VUndefined)) isBusy)
      ≠ Normal (VBool false).
Proof. vm_compute. repeat split; discriminate. Qed.

(** C4 (amended).  Without strict mode, on a registry object that takes
    the write as an own entry (the entry is not read-only, or the key is
    new, the object is extensible, and the name is neither a read-only
    inherited property nor the inherited [__proto__] accessor),
    [set key v] registers the key if it was absent and stores the value,
    and a [get key] right after it returns [v]; except that a [null] [v]
    is read as [false], and an [undefined] [v], which [set] takes for an
    omitted argument and replaces by its default, is read as [true]. *)
Theorem set_then_get key x fb w :
  strict (this w) = false →
  JS.stores key (states (this w)) = true →
  let stored := JS.default_param x (VBool true) in
  let w' :=
    mkWorld (mkManager (<[key := stored]> (states (this w)))
               false (createOnGet (this w)))
      (console w) in
  set key x w = (Normal tt, w')
  ∧ states (this w') !! key = Some stored
  ∧ get key fb w' =
      (Normal match x with
              | None | Some VUndefined => VBool true
              | Some VNull => VBool false
              | Some v => v
              end, w').
Proof.
  intros Hs Hst stored w'.
  assert (Hin : states (this w') !! key = Some stored)
    by apply object_lookup_insert_eq.
  split; [|split; [exact Hin|]].
  - calls. rewrite Hs. simpl. rewrite assign_stores by done. simpl.
    by rewrite Hs.
  - calls. rewrite (key_in_own _ key stored Hin), andb_false_r.
    rewrite (index_own _ key stored Hin).
    subst stored. by destruct x as [[]|].
Qed.

(** The test "should set and get values without strict mode". *)
Lemma set_then_get_witness :
  strict (this isBusy) = false
  ∧ JS.stores "task1" (states (this isBusy)) = true
  ∧ set "task1" (Some (VBool true)) isBusy
      = (Normal tt,
         fresh (mkManager (literal {["task1" := VBool true]}) false true))
  ∧ get "task1" None
      (fresh (mkManager (literal {["task1" := VBool true]}) false true))
      = (Normal (VBool true),
         fresh (mkManager (literal {["task1" := VBool true]}) false true)).
Proof.
  destruct (set_then_get "task1" (Some (VBool true)) None isBusy
              eq_refl eq_refl) as (Hset & _ & Hget).
  split; [reflexivity|]. split; [reflexivity|].
  split; [exact Hset | exact Hget].
Defined.

(** C5.  The code departs from its documentation, which has [get] return
    the value of the key, or [false] if not found.  Without strict mode
    and with no entries at all, [get] on the name [toString] returns the
    function the object inherits from [Object.prototype], not [false]:
    [this.states[key]] reads inherited properties too.  The state is left
    unchanged. *)
Theorem lax_get_of_inherited_name :
  strict (this isBusy) = false
  ∧ states (this isBusy) !! "toString" = None
  ∧ get "toString" None isBusy
      = (Normal (VObject (Some "function toString() { [native code] }")),
         isBusy)
  ∧ outcome (get "toString" None) isBusy ≠ Normal (VBool false).
Proof. vm_compute. repeat split; discriminate. Qed.

(** ** Configuration *)

(** C6.  [init] always returns.  It installs the supplied [initialStates]
    as the entries, or the empty object when there are none, whatever the
    entries were before; [strict] becomes the supplied flag, or [false];
    [createOnGet] becomes the supplied flag, or [true]. *)
Theorem init_resets options w :
  init options w =
    (Normal tt,
     mkWorld
       (mkManager
          match options ≫= InitOptions.initialStates with
          | Some entries => entries
          | None => ∅
          end
          match options ≫= InitOptions.strict with
          | Some b => b
          | None => false
          end
          match options ≫= InitOptions.createOnGet with
          | Some b => b
          | None => true
          end)
       (console w)).
Proof.
  rewrite init_eq.
  by destruct options as [[[[]|] [[]|] [m|]]|].
Qed.

(** After [init] with [initialStates = {a: "s"}], reading "a" gives "s",
    a key set before is gone and the switches are at their defaults. *)
Example init_discards_prior_entries :
  states (this (after (set "old" None) isBusy)) !! "old" = Some (VBool true)
  ∧ outcome (get "a" None)
      (after (init (Some (InitOptions.mk None None
                            (Some (literal {["a" := VStr "s"]})))))
         (after (set "old" None) isBusy))
      = Normal (VStr "s")
  ∧ this (after (init (Some (InitOptions.mk None None
                               (Some (literal {["a" := VStr "s"]})))))
            (after (set "old" None) isBusy))
      = mkManager (literal {["a" := VStr "s"]}) false true.
Proof. vm_compute. repeat split. Qed.

(** ** Registration *)

(** A registry object that cannot be extended refuses the new entry:
    [add] on a key that is absent ends in a [TypeError]. *)
Lemma add_on_frozen_registry_fails :
  states (this frozen_world) !! "b" = None
  ∧ JS.key_in "b" (states (this frozen_world)) = false
  ∧ add "b" (Some (VBool true)) frozen_world = (ThrowTypeError, frozen_world)
  ∧ outcome (add "b" (Some (VBool true))) frozen_world ≠ Normal tt.
Proof. vm_compute. repeat split; discriminate. Qed.

(** C7 (amended).  [add] never throws the class's own error, in any mode.
    On a key that the registry object neither holds nor inherits, and an
    extensible object, [add key x] stores [x] under the key, [false] when
    [x] is omitted or [undefined], and writes nothing; a second [add key y]
    then keeps the entry and writes the already-registered warning with
    the stored value.  More generally, on a key the object holds with a
    value that can be printed, [add] changes no entry, writes that warning
    and returns. *)
Theorem add_registers_or_warns key x y w :
  (∀ message, outcome (add key x) w ≠ Throw message)
  ∧ (JS.key_in key (states (this w)) = false →
     extensible (states (this w)) = true →
     let stored := JS.default_param x (VBool false) in
     let w1 :=
       mkWorld (mkManager (<[key := stored]> (states (this w)))
                  (strict (this w)) (createOnGet (this w)))
         (console w) in
     add key x w = (Normal tt, w1)
     ∧ (x = None ∨ x = Some VUndefined → stored = VBool false)
     ∧ (∀ v, x = Some v → v ≠ VUndefined → stored = v)
     ∧ ∀ printed, JS.template stored = Some printed →
         add key y w1 =
           (Normal tt,
            mkWorld (this w1)
              (console w ++ [msg_already_registered key printed])))
  ∧ (∀ v printed,
       states (this w) !! key = Some v →
       JS.template v = Some printed →
       add key x w =
         (Normal tt,
          mkWorld (this w)
            (console w ++ [msg_already_registered key printed]))).
Proof.
  split; [intros message; apply add_Throw_inv|]. split.
  - intros Hin He stored w1.
    split; [calls; by rewrite Hin, assign_creates|].
    split; [by intros [-> | ->]|].
    split; [intros v -> Hv; by apply default_param_defined|].
    intros printed Hp. calls. subst w1. cbn [this states console].
    rewrite key_in_insert.
    by rewrite (index_own _ key stored), Hp
      by apply object_lookup_insert_eq.
  - intros v printed Hk Hp. calls.
    by rewrite (key_in_own _ key v Hk), (index_own _ key v Hk), Hp.
Qed.

(** The tests "should add and remove keys" and "should warn when adding
    an existing key". *)
Lemma add_registers_or_warns_witness :
  (JS.key_in "task1" (states (this isBusy)) = false
   ∧ extensible (states (this isBusy)) = true)
  ∧ add "task1" None isBusy
      = (Normal tt,
         fresh (mkManager (literal {["task1" := VBool false]}) false true))
  ∧ add "task1" (Some (VBool true))
      (fresh (mkManager (literal {["task1" := VBool false]}) false true))
      = (Normal tt,
         mkWorld (mkManager (literal {["task1" := VBool false]}) false true)
           [msg_already_registered "task1" "false"])
  ∧ states (this preloaded_world) !! "b" = Some (VStr "s")
  ∧ add "b" (Some (VBool true)) preloaded_world
      = (Normal tt,
         mkWorld (this preloaded_world) [msg_already_registered "b" "s"]).
Proof.
  destruct (add_registers_or_warns "task1" None (Some (VBool true)) isBusy)
    as (_ & Hnew & _).
  destruct (Hnew eq_refl eq_refl) as (Hfirst & _ & _ & Hsecond).
  destruct (add_registers_or_warns "b" (Some (VBool true)) None
              preloaded_world) as (_ & _ & Hheld).
  split; [by split|]. split; [exact Hfirst|].
  split; [exact (Hsecond "false" eq_refl)|].
  split; [reflexivity|].
  exact (Hheld (VStr "s") "s" eq_refl eq_refl).
Defined.

(** ** Strict mode with unregistered and registered keys *)

(** C8.  The code departs from its documentation, which has [get] throw
    when strict mode is enabled and [createOnGet] is [false] and the key
    does not exist.  In strict mode without [createOnGet] and with no
    entries at all, [get] on the name [constructor] neither warns nor
    throws: it returns the [Object] function the object inherits. *)
Theorem strict_get_of_inherited_name :
  strict (this strict_world) = true
  ∧ createOnGet (this strict_world) = false
  ∧ states (this strict_world) !! "constructor" = None
  ∧ get "constructor" None strict_world
      = (Normal (VObject (Some "function Object() { [native code] }")),
         strict_world).
Proof. vm_compute. by repeat split. Qed.

(** A frozen object handed in through [initialStates] refuses the write
    and the deletion, in strict mode on a key it holds. *)
Lemma frozen_registry_refuses_write :
  strict (this frozen_world) = true
  ∧ states (this frozen_world) !! "a" = Some (VStr "s")
  ∧ set "a" (Some (VBool true)) frozen_world = (ThrowTypeError, frozen_world)
  ∧ remove "a" frozen_world = (ThrowTypeError, frozen_world)
  ∧ outcome (set "a" (Some (VBool true))) frozen_world ≠ Normal tt.
Proof. vm_compute. repeat split; discriminate. Qed.

(** C9 (amended).  A key that is in [states] is registered whatever value
    it holds, [false], [null] and [undefined] included.  In strict mode
    [remove], [set] and [get] on such a key never take the unregistered
    path: they write nothing to the console and do not throw the
    not-registered error.  [get] returns the entry (through [?? false])
    and changes nothing; [set] stores the value unless the entry is
    read-only, and [remove] deletes the entry unless it cannot be deleted,
    as is the case for every entry of a frozen object. *)
Theorem registered_key_is_served key v x fb w :
  strict (this w) = true →
  states (this w) !! key = Some v →
  get key fb w = (Normal (JS.nullish_coalesce v (VBool false)), w)
  ∧ (∀ message, outcome (set key x) w ≠ Throw message)
  ∧ console (after (set key x) w) = console w
  ∧ (∀ message, outcome (remove key) w ≠ Throw message)
  ∧ console (after (remove key) w) = console w
  ∧ (JS.stores key (states (this w)) = true →
     set key x w =
       (Normal tt,
        mkWorld (mkManager (<[key := JS.default_param x (VBool true)]>
                              (states (this w)))
                   true (createOnGet (this w)))
          (console w)))
  ∧ (JS.deletes key (states (this w)) = true →
     remove key w =
       (Normal tt,
        mkWorld (mkManager (delete key (states (this w)))
                   true (createOnGet (this w)))
          (console w))).
Proof.
  intros Hs Hk. unfold outcome, after. calls.
  rewrite (key_in_own _ key v Hk), andb_false_r.
  rewrite (index_own _ key v Hk).
  rewrite (assign_own _ key _ v Hk), (delete_own _ key v Hk).
  split; [done|].
  destruct (JS.stores key (states (this w))),
    (JS.deletes key (states (this w))); simpl; rewrite ?Hs;
    by repeat split.
Qed.

(** A key holding [undefined] is served like any registered key. *)
Lemma registered_key_is_served_witness :
  strict (this preloaded_world) = true
  ∧ states (this preloaded_world) !! "c" = Some VUndefined
  ∧ JS.stores "c" (states (this preloaded_world)) = true
  ∧ JS.deletes "c" (states (this preloaded_world)) = true
  ∧ remove "c" preloaded_world =
      (Normal tt,
       fresh (mkManager (delete "c" (states (this preloaded_world)))
                true false))
  ∧ set "c" (Some VNull) preloaded_world =
      (Normal tt,
       fresh (mkManager (<["c" := VNull]> (states (this preloaded_world)))
                true false))
  ∧ get "c" None preloaded_world = (Normal (VBool false), preloaded_world).
Proof.
  destruct (registered_key_is_served "c" VUndefined (Some VNull) None
              preloaded_world eq_refl eq_refl)
    as (Hget & _ & _ & _ & _ & Hset & Hremove).
  split; [reflexivity|]. split; [reflexivity|]. split; [reflexivity|].
  split; [reflexivity|].
  split; [exact (Hremove eq_refl)|].
  split; [exact (Hset eq_refl) | exact Hget].
Defined.

(** ** Frame *)

Lemma untouched_same_instance other w w1 w' :
  this w' = this w1 → untouched other w w1 → untouched other w w'.
Proof. unfold untouched. by intros ->. Qed.

Lemma untouched_refl other w : untouched other w w.
Proof. by repeat split. Qed.

Lemma settle_assign_untouched key other v w :
  other ≠ key →
  untouched other w (settle (JS.assign_property key v (states (this w))) w).2.
Proof.
  intros Hne. destruct (JS.assign_property key v (states (this w))) eqn:Hr;
    simpl; try apply untouched_refl.
  apply assign_result in Hr as (_ & Hother & _).
  repeat split; simpl. by apply Hother.
Qed.

Lemma settle_delete_untouched key other w :
  other ≠ key →
  untouched other w (settle (JS.delete_property key (states (this w))) w).2.
Proof.
  intros Hne. destruct (JS.delete_property key (states (this w))) eqn:Hr;
    simpl; try apply untouched_refl.
  apply delete_result in Hr as (_ & _ & _ & Hother).
  repeat split; simpl. by apply Hother.
Qed.

(** C10.  Whether they return or throw, [add], [remove], [set] and [get]
    called on a key leave [strict] and [createOnGet] as they were and leave
    the entry of every other key as it was. *)
Theorem methods_frame key other x fb w :
  other ≠ key →
  untouched other w (after (add key x) w)
  ∧ untouched other w (after (remove key) w)
  ∧ untouched other w (after (set key x) w)
  ∧ untouched other w (after (get key fb) w).
Proof.
  intros Hne. unfold after. calls.
  split; [|split; [|split]].
  - destruct (JS.key_in key (states (this w)));
      [by destruct (JS.template _)|].
    by apply settle_assign_untouched.
  - destruct (strict (this w) && negb (JS.key_in key (states (this w))));
      [by repeat split|].
    destruct (JS.key_in key (states (this w))); [|by repeat split].
    by apply settle_delete_untouched.
  - destruct (strict (this w) && negb (JS.key_in key (states (this w))));
      [by repeat split|].
    by apply settle_assign_untouched.
  - destruct (strict (this w) && negb (JS.key_in key (states (this w))));
      [|by repeat split].
    destruct (createOnGet (this w)); [|by repeat split].
    pose proof (settle_assign_untouched key other
                  (JS.default_param fb (VBool false)) w Hne) as Hget.
    destruct (settle _ w) as [[] w1]; simpl in *; try done.
    destruct (JS.to_String _); [|done].
    by apply (untouched_same_instance other w w1).
Qed.

(** Calls on "b" leave the entry of "a" and the switches alone. *)
Lemma methods_frame_witness :
  "a" ≠ "b"
  ∧ states (this (after (remove "b") preloaded_world)) !! "b" = None
  ∧ untouched "a" preloaded_world
      (after (add "b" (Some (VBool true))) preloaded_world)
  ∧ untouched "a" preloaded_world (after (remove "b") preloaded_world)
  ∧ untouched "a" preloaded_world
      (after (set "b" (Some (VBool true))) preloaded_world)
  ∧ untouched "a" preloaded_world (after (get "b" None) preloaded_world).
Proof.
  assert (Hne : "a" ≠ "b") by discriminate.
  split; [exact Hne|]. split; [reflexivity|].
  exact (methods_frame "b" "a" (Some (VBool true)) None preloaded_world Hne).
Defined.

(** ** Further properties of the class *)

Lemma appended_nothing w w' :
  console w' = console w → appended_at_most_one w w'.
Proof.
  intros H. exists []. split; [by rewrite H, app_nil_r | simpl; lia].
Qed.

Lemma appended_one w w' message :
  console w' = (console w ++ [message])%list → appended_at_most_one w w'.
Proof. intros H. exists [message]. split; [done | simpl; lia]. Qed.

(** X1.  When a call throws the class's own error.  [add] never does.
    [remove] and [set] do exactly in strict mode on a key that is not in
    the registry object (neither held nor inherited), with the "Use add"
    message; [get] does exactly in strict mode without [createOnGet] on
    such a key, with the not-registered message.  The error leaves the
    instance as it was, with the message on the console. *)
Theorem throws_exactly_when key x fb w message :
  outcome (add key x) w ≠ Throw message
  ∧ (outcome (remove key) w = Throw message ↔
     strict (this w) = true ∧ JS.key_in key (states (this w)) = false
     ∧ message = msg_use_add key)
  ∧ (outcome (set key x) w = Throw message ↔
     strict (this w) = true ∧ JS.key_in key (states (this w)) = false
     ∧ message = msg_use_add key)
  ∧ (outcome (get key fb) w = Throw message ↔
     strict (this w) = true ∧ createOnGet (this w) = false
     ∧ JS.key_in key (states (this w)) = false
     ∧ message = msg_not_registered key)
  ∧ (outcome (remove key) w = Throw message →
     after (remove key) w = mkWorld (this w) (console w ++ [message]))
  ∧ (outcome (set key x) w = Throw message →
     after (set key x) w = mkWorld (this w) (console w ++ [message]))
  ∧ (outcome (get key fb) w = Throw message →
     after (get key fb) w = mkWorld (this w) (console w ++ [message])).
Proof.
  split; [apply add_Throw_inv|].
  split; [apply remove_Throw_iff|].
  split; [apply set_Throw_iff|].
  split; [apply get_Throw_iff|].
  split; [|split].
  - intros (Hs & Hin & ->)%remove_Throw_iff.
    unfold after. calls. by rewrite Hs, Hin.
  - intros (Hs & Hin & ->)%set_Throw_iff.
    unfold after. calls. by rewrite Hs, Hin.
  - intros (Hs & Hc & Hin & ->)%get_Throw_iff.
    unfold after. calls. by rewrite Hs, Hc, Hin.
Qed.

Lemma throws_exactly_when_witness :
  outcome (remove "task") strict_world = Throw (msg_use_add "task")
  ∧ outcome (set "task" None) strict_world = Throw (msg_use_add "task")
  ∧ outcome (get "task" None) strict_world
      = Throw (msg_not_registered "task")
  ∧ after (get "task" None) strict_world
      = mkWorld (this strict_world) [msg_not_registered "task"]
  ∧ (strict (this creating_world) = true
     ∧ JS.key_in "task" (states (this creating_world)) = false).
Proof.
  destruct (throws_exactly_when "task" None None strict_world
              (msg_use_add "task")) as (_ & Hremove & Hset & _).
  destruct (throws_exactly_when "task" None None strict_world
              (msg_not_registered "task"))
    as (_ & _ & _ & Hget & _ & _ & Hafter).
  destruct (throws_exactly_when "task" None None creating_world
              (msg_use_add "task")) as (_ & Hback & _).
  assert (Hthrown : outcome (get "task" None) strict_world
                    = Throw (msg_not_registered "task"))
    by (apply Hget; by repeat split).
  split; [apply Hremove; by repeat split|].
  split; [apply Hset; by repeat split|].
  split; [exact Hthrown|].
  split; [exact (Hafter Hthrown)|].
  destruct (proj1 Hback eq_refl) as (Hs & Hk & _). by split.
Defined.

(** X2.  [createOnGet] overrides [strict] for [get]: with [createOnGet]
    on, [get] never throws the not-registered error, on any key in any
    mode, and in strict mode a [get] that returns leaves the key in the
    registry object. *)
Theorem createOnGet_overrides_strict key fb w :
  createOnGet (this w) = true →
  (∀ message, outcome (get key fb) w ≠ Throw message)
  ∧ (∀ v, strict (this w) = true →
          outcome (get key fb) w = Normal v →
          JS.key_in key (states (this (after (get key fb) w))) = true).
Proof.
  intros Hcreate. split.
  { intros message (_ & Hc & _)%get_Throw_iff. congruence. }
  intros v Hs. unfold outcome, after. calls. rewrite Hs, Hcreate. simpl.
  destruct (JS.key_in key (states (this w))) eqn:Hin; simpl; [done|].
  rewrite assign_new by done.
  destruct (extensible (states (this w))); simpl; try done.
  destruct (JS.to_String _); simpl; [|done].
  intros _. apply key_in_insert.
Qed.

Lemma createOnGet_overrides_strict_witness :
  createOnGet (this creating_world) = true
  ∧ strict (this creating_world) = true
  ∧ outcome (get "task" None) creating_world = Normal (VBool false)
  ∧ JS.key_in "task"
      (states (this (after (get "task" None) creating_world))) = true.
Proof.
  destruct (createOnGet_overrides_strict "task" None creating_world eq_refl)
    as (_ & Hregistered).
  split; [reflexivity|]. split; [reflexivity|]. split; [reflexivity|].
  exact (Hregistered (VBool false) eq_refl eq_refl).
Defined.

(** X3.  Without strict mode no call throws the not-registered error or
    writes a not-registered warning: [remove] and [set] leave the console
    as it was, and [get] returns what [states[key] ?? false] reads and
    changes nothing. *)
Theorem lax_mode_never_throws_or_warns key x fb w :
  strict (this w) = false →
  (∀ message, outcome (remove key) w ≠ Throw message)
  ∧ console (after (remove key) w) = console w
  ∧ (∀ message, outcome (set key x) w ≠ Throw message)
  ∧ console (after (set key x) w) = console w
  ∧ get key fb w =
      (Normal (JS.nullish_coalesce (JS.index (states (this w)) key)
                 (VBool false)),
       w).
Proof.
  intros Hlax.
  split; [intros message (Hs & _)%remove_Throw_iff; congruence|].
  split.
  { unfold after. calls. rewrite Hlax. simpl.
    destruct (JS.key_in key (states (this w))); [|done].
    apply settle_console. }
  split; [intros message (Hs & _)%set_Throw_iff; congruence|].
  split.
  { unfold after. calls. rewrite Hlax. simpl. apply settle_console. }
  calls. by rewrite Hlax.
Qed.

Lemma lax_mode_never_throws_or_warns_witness :
  strict (this isBusy) = false
  ∧ console (after (remove "task") isBusy) = []
  ∧ console (after (set "task" None) isBusy) = []
  ∧ get "task" None isBusy = (Normal (VBool false), isBusy).
Proof.
  destruct (lax_mode_never_throws_or_warns "task" None None isBusy eq_refl)
    as (_ & Hremove & _ & Hset & Hget).
  split; [reflexivity|].
  split; [exact Hremove|]. split; [exact Hset | exact Hget].
Defined.

(** X4.  The console is append-only.  [init] writes nothing; every call
    of [add], [remove], [set] or [get] keeps the messages that were there
    and writes at most one more. *)
Theorem console_is_append_only options key x fb w :
  console (after (init options) w) = console w
  ∧ appended_at_most_one w (after (add key x) w)
  ∧ appended_at_most_one w (after (remove key) w)
  ∧ appended_at_most_one w (after (set key x) w)
  ∧ appended_at_most_one w (after (get key fb) w).
Proof.
  unfold after. calls.
  split; [done|]. split; [|split; [|split]].
  - destruct (JS.key_in key (states (this w)));
      [destruct (JS.template _)|].
    + by eapply appended_one.
    + by apply appended_nothing.
    + apply appended_nothing, settle_console.
  - destruct (strict (this w) && negb (JS.key_in key (states (this w))));
      [by eapply appended_one|].
    destruct (JS.key_in key (states (this w)));
      [apply appended_nothing, settle_console | by apply appended_nothing].
  - destruct (strict (this w) && negb (JS.key_in key (states (this w))));
      [by eapply appended_one | apply appended_nothing, settle_console].
  - destruct (strict (this w) && negb (JS.key_in key (states (this w))));
      [|by apply appended_nothing].
    destruct (createOnGet (this w)); [|by eapply appended_one].
    pose proof (settle_console
                  (JS.assign_property key (JS.default_param fb (VBool false))
                     (states (this w))) w) as Hsame.
    destruct (settle _ w) as [[] w1]; simpl in *;
      try (by apply appended_nothing).
    destruct (JS.to_String _); simpl; [|by apply appended_nothing].
    eapply appended_one. simpl. by rewrite Hsame.
Qed.

(** X5.  The last write wins: on a key other than [__proto__],
    [set key x] followed by [set key y] leaves the same result and world
    as [set key y] alone, in every mode and whether the registry object
    accepts the write or refuses it. *)
Theorem set_last_write_wins key x y w :
  key ≠ "__proto__" →
  (set key x ;; set key y)%js w = set key y w.
Proof.
  intros Hne. unfold bind. rewrite (set_eq key x w), (set_eq key y w).
  destruct (strict (this w) && negb (JS.key_in key (states (this w))))
    eqn:Hpath; [done|].
  destruct (assign_cases key (states (this w)) Hne)
    as [[Hst Hassign] | [_ Hassign]]; rewrite !Hassign; simpl; [|done].
  rewrite set_eq. simpl. rewrite key_in_insert, andb_false_r.
  rewrite assign_stores by by apply stores_insert.
  simpl. by rewrite object_insert_insert.
Qed.

Lemma set_last_write_wins_witness :
  "task" ≠ "__proto__"
  ∧ (set "task" (Some (VBool true)) ;; set "task" (Some (VBool false)))%js
      isBusy
    = set "task" (Some (VBool false)) isBusy.
Proof.
  assert (Hne : "task" ≠ "__proto__") by discriminate.
  split; [exact Hne|].
  exact (set_last_write_wins "task" (Some (VBool true)) (Some (VBool false))
           isBusy Hne).
Defined.

(** ** How calls compose *)

Lemma key_in_not_inherited (obj : object) key :
  obj !! key = None → JS.inherited obj key = Absent →
  JS.key_in key obj = false.
Proof. intros Hk Hi. by apply key_in_false. Qed.

Lemma inherited_same_proto (obj obj' : object) key :
  proto obj' = proto obj → JS.inherited obj' key = JS.inherited obj key.
Proof. unfold JS.inherited. by intros ->. Qed.

(** X6.  A [remove key] that returns leaves no entry for the key.
    Without strict mode, [remove] twice is [remove] once.  In strict mode,
    after a [remove] that returned, a second [remove] of a key that the
    registry object does not inherit throws the not-registered error and
    leaves the world of the first. *)
Theorem remove_twice key w :
  (outcome (remove key) w = Normal tt →
   states (this (after (remove key) w)) !! key = None)
  ∧ (strict (this w) = false →
     (remove key ;; remove key)%js w = remove key w)
  ∧ (strict (this w) = true →
     outcome (remove key) w = Normal tt →
     JS.inherited (states (this w)) key = Absent →
     (remove key ;; remove key)%js w =
       (Throw (msg_use_add key),
        mkWorld (this (after (remove key) w))
          (console w ++ [msg_use_add key]))).
Proof.
  unfold outcome, after, bind. rewrite (remove_eq key w).
  destruct (strict (this w)) eqn:Hs; simpl;
    destruct (JS.key_in key (states (this w))) eqn:Hin; simpl.
  - destruct (JS.delete_property key (states (this w))) as [obj| | |] eqn:Hd;
      simpl; (split; [try done|split; try done]).
    + intros _. by apply delete_result in Hd as (_ & _ & ? & _).
    + intros _ _ Hi. apply delete_result in Hd as (_ & Hp & Hk & _).
      rewrite <- (inherited_same_proto _ obj key Hp) in Hi.
      rewrite remove_eq. simpl.
      by rewrite (key_in_not_inherited obj key Hk Hi), Hs.
  - by repeat split.
  - destruct (JS.delete_property key (states (this w))) as [obj| | |] eqn:Hd;
      simpl; (split; [try done|split; try done]).
    + intros _. by apply delete_result in Hd as (_ & _ & ? & _).
    + intros _. pose proof Hd as (_ & _ & Hk & _)%delete_result.
      rewrite remove_eq. simpl. rewrite Hs. simpl.
      destruct (JS.key_in key obj); [|done].
      by rewrite delete_absent.
  - split; [|split; [|done]].
    + intros _. by apply key_in_false in Hin as [? _].
    + intros _. rewrite remove_eq. by rewrite Hs, Hin.
Qed.

Lemma remove_twice_witness :
  (strict (this isBusy) = false
   ∧ (remove "task" ;; remove "task")%js isBusy = remove "task" isBusy)
  ∧ (strict (this preloaded_world) = true
     ∧ outcome (remove "b") preloaded_world = Normal tt
     ∧ JS.inherited (states (this preloaded_world)) "b" = Absent
     ∧ states (this (after (remove "b") preloaded_world)) !! "b" = None
     ∧ outcome (remove "b" ;; remove "b")%js preloaded_world
         = Throw (msg_use_add "b")).
Proof.
  destruct (remove_twice "task" isBusy) as (_ & Hlax & _).
  destruct (remove_twice "b" preloaded_world) as (Hgone & _ & Hstrict).
  split; [split; [reflexivity | exact (Hlax eq_refl)]|].
  split; [reflexivity|]. split; [reflexivity|]. split; [reflexivity|].
  split; [exact (Hgone eq_refl)|].
  unfold outcome. by rewrite (Hstrict eq_refl eq_refl eq_refl).
Defined.

(** X7.  Registering a key and removing it again restores the world: on a
    key that is not in the registry object, and an extensible object,
    [add] then [remove] returns normally in every mode and leaves the
    instance and the console exactly as they were; without strict mode the
    same holds for [set] then [remove]. *)
Theorem register_then_remove_restores key x w :
  JS.key_in key (states (this w)) = false →
  extensible (states (this w)) = true →
  (add key x ;; remove key)%js w = (Normal tt, w)
  ∧ (strict (this w) = false →
     (set key x ;; remove key)%js w = (Normal tt, w)).
Proof.
  intros Hin Hl. pose proof Hin as [Hk _]%key_in_false.
  assert (Hback : ∀ v sm,
            remove key
              (mkWorld (mkManager (<[key := v]> (states (this w))) sm
                          (createOnGet (this w))) (console w))
            = (Normal tt,
               mkWorld (mkManager (states (this w)) sm
                          (createOnGet (this w))) (console w))).
  { intros v sm. rewrite remove_eq. simpl.
    rewrite key_in_insert, andb_false_r.
    rewrite (delete_own _ key v) by apply object_lookup_insert_eq.
    rewrite (deletes_insert_new _ key v Hk). simpl.
    by rewrite object_delete_insert. }
  unfold bind. rewrite add_eq, set_eq, Hin, andb_true_r.
  rewrite !assign_creates by done. simpl. split.
  - by rewrite Hback, manager_eta, world_eta.
  - intros Hs. rewrite Hs. simpl.
    by rewrite Hback, <- Hs, manager_eta, world_eta.
Qed.

Lemma register_then_remove_restores_witness :
  JS.key_in "fetchingData" (states (this strict_world)) = false
  ∧ extensible (states (this strict_world)) = true
  ∧ (add "fetchingData" None ;; remove "fetchingData")%js strict_world
      = (Normal tt, strict_world)
  ∧ strict (this isBusy) = false
  ∧ (set "fetchingData" None ;; remove "fetchingData")%js isBusy
      = (Normal tt, isBusy).
Proof.
  destruct (register_then_remove_restores "fetchingData" None strict_world
              eq_refl eq_refl) as (Hadd & _).
  destruct (register_then_remove_restores "fetchingData" None isBusy
              eq_refl eq_refl) as (_ & Hset).
  split; [reflexivity|]. split; [reflexivity|]. split; [exact Hadd|].
  split; [reflexivity | exact (Hset eq_refl)].
Defined.

(** X8.  Round trip of [add] and [get]: on a key that is not in the
    registry object, and an extensible object, in every mode, [add key v]
    followed by [get key] writes no warning and returns [v], read through
    [?? false]: [false] after [add key] without a value or with [null]. *)
Theorem add_then_get key x fb w :
  JS.key_in key (states (this w)) = false →
  extensible (states (this w)) = true →
  let stored := JS.default_param x (VBool false) in
  let w1 :=
    mkWorld (mkManager (<[key := stored]> (states (this w)))
               (strict (this w)) (createOnGet (this w)))
      (console w) in
  (add key x ;; get key fb)%js w
  = (Normal (JS.nullish_coalesce stored (VBool false)), w1)
  ∧ (∀ v, x = Some v → JS.is_nullish v = false →
          JS.nullish_coalesce stored (VBool false) = v).
Proof.
  intros Hin Hl stored w1. split.
  - unfold bind. rewrite add_eq, Hin, assign_creates by done. simpl.
    rewrite get_eq. simpl. rewrite key_in_insert, andb_false_r.
    by rewrite (index_own _ key stored) by apply object_lookup_insert_eq.
  - intros v -> Hv. subst stored. by destruct v.
Qed.

Lemma add_then_get_witness :
  JS.key_in "task3" (states (this strict_world)) = false
  ∧ extensible (states (this strict_world)) = true
  ∧ outcome (add "task3" (Some (VStr "inProgress")) ;;
             get "task3" None)%js strict_world
      = Normal (VStr "inProgress").
Proof.
  destruct (add_then_get "task3" (Some (VStr "inProgress")) None
              strict_world eq_refl eq_refl) as (Hget & Hvalue).
  split; [reflexivity|]. split; [reflexivity|].
  unfold outcome. rewrite Hget.
  cbn [fst]. by rewrite (Hvalue (VStr "inProgress") eq_refl eq_refl).
Defined.

(** X9.  Without strict mode, on a key that the registry object does not
    inherit and whose entry, if there is one, can be deleted, [get] right
    after [remove] returns [false], the entry is gone and the two calls
    write nothing. *)
Theorem remove_then_get_lax key fb w :
  strict (this w) = false →
  JS.inherited (states (this w)) key = Absent →
  JS.deletes key (states (this w)) = true →
  (remove key ;; get key fb)%js w
  = (Normal (VBool false),
     mkWorld (mkManager (delete key (states (this w)))
                false (createOnGet (this w)))
       (console w)).
Proof.
  intros Hlax Hi Hd. unfold bind. rewrite remove_eq, Hlax. simpl.
  assert (Hgone : JS.key_in key (delete key (states (this w))) = false)
    by (apply key_in_not_inherited; [apply object_lookup_delete_eq | done]).
  destruct (JS.key_in key (states (this w))) eqn:Hin.
  - destruct (states (this w) !! key) as [v|] eqn:Hk.
    2:{ apply (key_in_not_inherited _ _ Hk) in Hi. congruence. }
    rewrite (delete_own _ key v Hk), Hd. simpl. rewrite get_eq. simpl.
    by rewrite Hgone, Hlax, (index_not_in _ _ Hgone).
  - apply key_in_false in Hin as [Hk _].
    rewrite object_delete_absent in * by done.
    rewrite get_eq, Hlax. simpl. rewrite (index_not_in _ _ Hgone).
    open_world w. by subst.
Qed.

Lemma remove_then_get_lax_witness :
  strict (this (after (set "task6" (Some (VBool true))) isBusy)) = false
  ∧ outcome (remove "task6" ;; get "task6" None)%js
      (after (set "task6" (Some (VBool true))) isBusy)
      = Normal (VBool false).
Proof.
  split; [reflexivity|]. unfold outcome.
  by rewrite (remove_then_get_lax "task6" None
                (after (set "task6" (Some (VBool true))) isBusy)
                eq_refl eq_refl eq_refl).
Defined.

Lemma add_registers key x w :
  outcome (add key x) w = Normal tt →
  JS.key_in key (states (this (after (add key x) w))) = true.
Proof.
  unfold outcome, after. calls.
  destruct (JS.key_in key (states (this w))) eqn:Hin.
  - by destruct (JS.template _).
  - rewrite assign_new by done.
    destruct (extensible (states (this w))); simpl; try done.
    intros _. apply key_in_insert.
Qed.

(** X10.  Registering first rules out the not-registered error: after
    [add key], in every mode and whatever the entries and the value,
    [set], [remove] and [get] on that key do not throw it. *)
Theorem add_first_is_safe key x y fb w message :
  outcome (add key x ;; set key y)%js w ≠ Throw message
  ∧ outcome (add key x ;; remove key)%js w ≠ Throw message
  ∧ outcome (add key x ;; get key fb)%js w ≠ Throw message.
Proof.
  pose proof (add_registers key x w) as Hreg.
  pose proof (add_Throw_inv key x w) as Hadd.
  unfold outcome, after, bind in *.
  destruct (add key x w) as [[[]|e| |] w1]; simpl in *;
    [|by destruct (Hadd e)|by repeat split..].
  specialize (Hreg eq_refl).
  split; [|split].
  - intros (_ & Hin & _)%set_Throw_iff. congruence.
  - intros (_ & Hin & _)%remove_Throw_iff. congruence.
  - intros (_ & _ & Hin & _)%get_Throw_iff. congruence.
Qed.

(** X11.  [get] can be repeated: when [get key] returned a value, a second
    [get key], with any fallback, changes nothing, writes no further
    warning and returns that value again, read through [?? false] (so a
    returned [null] becomes [false]). *)
Theorem get_again key fb fb' w v :
  outcome (get key fb) w = Normal v →
  get key fb' (after (get key fb) w)
  = (Normal (JS.nullish_coalesce v (VBool false)), after (get key fb) w).
Proof.
  unfold outcome, after. rewrite (get_eq key fb w). cbv zeta.
  destruct (strict (this w) && negb (JS.key_in key (states (this w))))
    eqn:Hpath.
  - apply andb_prop in Hpath as [Hs Hin%negb_true_iff].
    destruct (createOnGet (this w)); [|done].
    rewrite assign_new by done.
    destruct (extensible (states (this w))); simpl; try done.
    destruct (JS.to_String _); simpl; [|done].
    intros [= <-]. rewrite get_eq. simpl.
    rewrite key_in_insert, andb_false_r.
    by rewrite (index_own _ key (JS.default_param fb (VBool false)))
      by apply object_lookup_insert_eq.
  - simpl. intros [= <-]. rewrite get_eq. cbv zeta. rewrite Hpath.
    by rewrite nullish_coalesce_idemp.
Qed.

Lemma get_again_witness :
  outcome (get "newTask" (Some (VStr "newState"))) creating_world
    = Normal (VStr "newState")
  ∧ get "newTask" None
      (after (get "newTask" (Some (VStr "newState"))) creating_world)
    = (Normal (VStr "newState"),
       after (get "newTask" (Some (VStr "newState"))) creating_world).
Proof.
  split; [reflexivity|].
  exact (get_again "newTask" (Some (VStr "newState")) None creating_world
           (VStr "newState") eq_refl).
Defined.

(** X12.  [get] changes the instance exactly when it registers the key
    itself: in strict mode with [createOnGet], on a key that is not in the
    registry object, and an extensible object.  On every other path, the
    throwing ones included, the instance is as before. *)
Theorem get_mutates_only_when_creating key fb w :
  this (after (get key fb) w) = this w ↔
  ¬ (strict (this w) = true ∧ createOnGet (this w) = true
     ∧ JS.key_in key (states (this w)) = false
     ∧ extensible (states (this w)) = true).
Proof.
  unfold after. calls.
  destruct (strict (this w)) eqn:Hs; simpl;
    [|split; [by intros _ (? & _) | done]].
  destruct (JS.key_in key (states (this w))) eqn:Hin; simpl;
    [split; [by intros _ (_ & _ & ? & _) | done]|].
  destruct (createOnGet (this w)) eqn:Hc;
    [|split; [by intros _ (_ & ? & _) | done]].
  rewrite assign_new by done.
  destruct (extensible (states (this w))) eqn:Hl; simpl;
    try (split; [by intros _ (_ & _ & _ & ?) | done]).
  split; [|intros H; destruct H; by repeat split].
  intros Hsame _.
  assert (Hnow : states (this w) !! key
                 = Some (JS.default_param fb (VBool false))).
  { rewrite <- (object_lookup_insert_eq (states (this w)) key).
    destruct (JS.to_String _); simpl in Hsame;
      apply (f_equal states) in Hsame; simpl in Hsame; by rewrite Hsame. }
  apply key_in_false in Hin as [Hk _]. congruence.
Qed.

Lemma get_mutates_only_when_creating_witness :
  this (after (get "x" None) strict_world) = this strict_world
  ∧ this (after (get "x" None) creating_world) ≠ this creating_world.
Proof.
  split.
  - apply (get_mutates_only_when_creating "x" None strict_world).
    intros (_ & Hc & _). discriminate Hc.
  - intros Hsame.
    apply (proj1 (get_mutates_only_when_creating "x" None creating_world)
             Hsame).
    by repeat split.
Defined.

Lemma init_without_options w : this (after (init None) w) = constructor.
Proof. unfold after. by rewrite init_eq. Qed.

Lemma settle_assign_no_undefined key v w :
  v ≠ VUndefined → no_undefined_entry w →
  no_undefined_entry
    (settle (JS.assign_property key v (states (this w))) w).2.
Proof.
  intros Hv Hinv.
  destruct (JS.assign_property key v (states (this w))) eqn:Hr;
    simpl; try done.
  apply assign_result in Hr as (_ & Hother & Hkey).
  intros k. simpl. destruct (decide (k = key)) as [->|Hne].
  - destruct Hkey as [-> | ->]; [congruence | apply Hinv].
  - rewrite Hother by done. apply Hinv.
Qed.

(** X14.  Only [init] can bring an [undefined] entry in.  If no
    registered key holds [undefined], none does after [add], [remove],
    [set] or [get], whatever the arguments (an [undefined] argument is
    replaced by the parameter's default before it is stored); and [init]
    without options leaves no entry at all. *)
Theorem no_undefined_entry_kept key x fb w :
  no_undefined_entry (after (init None) w)
  ∧ (no_undefined_entry w →
     no_undefined_entry (after (add key x) w)
     ∧ no_undefined_entry (after (remove key) w)
     ∧ no_undefined_entry (after (set key x) w)
     ∧ no_undefined_entry (after (get key fb) w)).
Proof.
  split.
  { intros k. rewrite init_without_options. unfold constructor.
    cbn [states]. by rewrite object_lookup_empty. }
  intros Hinv.
  assert (Hdefault : ∀ arg d, d ≠ VUndefined →
            no_undefined_entry
              (settle (JS.assign_property key (JS.default_param arg d)
                         (states (this w))) w).2).
  { intros arg d Hd. apply settle_assign_no_undefined; [|done].
    by apply default_param_never_undefined. }
  unfold after. calls. split; [|split; [|split]].
  - destruct (JS.key_in key (states (this w)));
      [by destruct (JS.template _) | by apply Hdefault].
  - destruct (strict (this w) && negb (JS.key_in key (states (this w))));
      [done|].
    destruct (JS.key_in key (states (this w))); [|done].
    destruct (JS.delete_property key (states (this w))) eqn:Hd;
      simpl; try done.
    apply delete_result in Hd as (_ & _ & Hk & Hother).
    intros k. simpl. destruct (decide (k = key)) as [->|Hne].
    + by rewrite Hk.
    + rewrite Hother by done. apply Hinv.
  - destruct (strict (this w) && negb (JS.key_in key (states (this w))));
      [done | by apply Hdefault].
  - destruct (strict (this w) && negb (JS.key_in key (states (this w))));
      [|done].
    destruct (createOnGet (this w)); [|done].
    specialize (Hdefault fb (VBool false) ltac:(discriminate)).
    destruct (settle _ w) as [[] w1]; simpl in *; try done.
    by destruct (JS.to_String _).
Qed.

Lemma no_undefined_entry_kept_witness :
  no_undefined_entry isBusy
  ∧ no_undefined_entry (after (set "task" (Some VUndefined)) isBusy)
  ∧ states (this (after (set "task" (Some VUndefined)) isBusy)) !! "task"
      = Some (VBool true).
Proof.
  assert (Hstart : no_undefined_entry isBusy).
  { intros k. change ((∅ : object) !! k ≠ Some VUndefined).
    by rewrite object_lookup_empty. }
  destruct (no_undefined_entry_kept "task" (Some VUndefined) None isBusy)
    as (_ & Hkept).
  destruct (Hkept Hstart) as (_ & _ & Hset & _).
  split; [exact Hstart|]. split; [exact Hset | reflexivity].
Defined.

(** X15.  [init] forgets every earlier configuration: [init] twice is the
    second [init] alone, and [init] without options puts the instance back
    to what the constructor builds, whatever it held. *)
Theorem init_overrides options1 options2 w :
  (init options1 ;; init options2)%js w = init options2 w
  ∧ this (after (init None) w) = constructor.
Proof.
  split; [|apply init_without_options].
  unfold bind. by rewrite !init_eq.
Qed.

(** ** The earlier revision *)

Ltac open_earlier w :=
  let st := fresh "st" in
  let en := fresh "en" in
  let out := fresh "out" in
  destruct w as [[st en] out]; simpl in *.

(** X16.  Earlier revision, enforced registration: [set] on a key that is
    not in the registry object stores nothing and only warns, and the
    [get] that follows warns again and returns [false]; the instance is
    untouched. *)
Theorem earlier_unregistered_is_refused key x w :
  Earlier.enforceRegistration (Earlier.this w) = true →
  JS.key_in key (Earlier.states (Earlier.this w)) = false →
  Earlier.set key x w =
    (Normal tt,
     Earlier.mkWorld (Earlier.this w)
       (Earlier.console w ++ [Earlier.msg_use_register key]))
  ∧ Earlier.get key (Earlier.set key x w).2 =
      (VBool false,
       Earlier.mkWorld (Earlier.this w)
         (Earlier.console w
            ++ [Earlier.msg_use_register key; msg_not_registered key])).
Proof.
  intros He Hin. open_earlier w. subst en.
  unfold Earlier.get, Earlier.set. simpl. rewrite Hin. simpl.
  rewrite Hin. simpl. by rewrite <- app_assoc.
Qed.

Lemma earlier_unregistered_is_refused_witness :
  Earlier.get "unregisteredTask"
    (Earlier.set "unregisteredTask" (Some (VBool true))
       (Earlier.init (Some (Earlier.InitOptions.mk (Some true) None))
          (Earlier.mkWorld Earlier.constructor []))).2
  = (VBool false,
     Earlier.mkWorld (Earlier.mkManager ∅ true)
       [Earlier.msg_use_register "unregisteredTask";
        msg_not_registered "unregisteredTask"]).
Proof.
  exact (proj2 (earlier_unregistered_is_refused "unregisteredTask"
                  (Some (VBool true))
                  (Earlier.init
                     (Some (Earlier.InitOptions.mk (Some true) None))
                     (Earlier.mkWorld Earlier.constructor []))
                  eq_refl eq_refl)).
Defined.

(** X17.  Earlier revision: [get] never returns [null] or [undefined] and
    never changes the instance, and [remove] of an unregistered key
    changes nothing, enforced registration or not. *)
Theorem earlier_get_and_remove key w :
  JS.is_nullish (fst (Earlier.get key w)) = false
  ∧ Earlier.this (snd (Earlier.get key w)) = Earlier.this w
  ∧ (Earlier.states (Earlier.this w) !! key = None →
     Earlier.remove key w = (Normal tt, w)).
Proof.
  open_earlier w.
  unfold Earlier.get, Earlier.remove. simpl.
  split; [|split].
  - destruct (en && negb (JS.key_in key st)); [done|].
    apply nullish_coalesce_not_nullish.
  - by destruct (en && negb (JS.key_in key st)).
  - intros Hk. by rewrite delete_absent.
Qed.

Lemma earlier_get_and_remove_witness :
  Earlier.states
    (Earlier.this (Earlier.mkWorld (Earlier.mkManager ∅ true) [])) !! "task"
    = None
  ∧ Earlier.remove "task" (Earlier.mkWorld (Earlier.mkManager ∅ true) [])
    = (Normal tt, Earlier.mkWorld (Earlier.mkManager ∅ true) []).
Proof.
  split; [reflexivity|].
  exact (proj2 (proj2 (earlier_get_and_remove "task"
                         (Earlier.mkWorld (Earlier.mkManager ∅ true) [])))
           eq_refl).
Defined.

Lemma same_registry_settle change old new :
  same_registry old new →
  same_registry (Earlier.change_states change old).2 (settle change new).2.
Proof. intros [Hst He]. by destruct change. Qed.

(** X18.  The current class keeps the entries of the earlier revision.
    Started from corresponding options, and after the same call of [add],
    [remove] or [set] on registries that correspond, the two revisions
    hold the same entries and the same switch, also where the current one
    throws.  The same holds for [get] unless the current class registers
    the key itself (strict mode with [createOnGet]); there a value the
    current [get] returns is the value the earlier [get] returns, and
    where the current [get] throws the earlier one returns [false]. *)
Theorem revisions_agree key x fb enforce create entries old new :
  same_registry
    (Earlier.init (Some (Earlier.InitOptions.mk enforce entries)) old)
    (after (init (Some (InitOptions.mk enforce create entries))) new)
  ∧ (same_registry old new →
     same_registry (Earlier.add key x old).2 (after (add key x) new)
     ∧ same_registry (Earlier.remove key old).2 (after (remove key) new)
     ∧ same_registry (Earlier.set key x old).2 (after (set key x) new)
     ∧ (strict (this new) = false ∨ createOnGet (this new) = false →
        same_registry (snd (Earlier.get key old)) (after (get key fb) new)
        ∧ (∀ v, outcome (get key fb) new = Normal v →
                fst (Earlier.get key old) = v)
        ∧ (∀ message, outcome (get key fb) new = Throw message →
                      fst (Earlier.get key old) = VBool false))).
Proof.
  split.
  { unfold after. rewrite init_eq. by split. }
  intros Hsame. pose proof Hsame as [Hst He].
  unfold outcome, after, Earlier.add, Earlier.remove, Earlier.set,
    Earlier.get.
  calls. rewrite Hst, He.
  split; [|split; [|split]].
  - destruct (JS.key_in key (states (this new))); simpl;
      [destruct (JS.template _); by split
      | by apply same_registry_settle].
  - destruct (strict (this new)) eqn:Hs; simpl;
      destruct (JS.key_in key (states (this new))) eqn:Hin; simpl;
      try (by apply same_registry_settle);
      apply key_in_false in Hin as [Hk _]; rewrite delete_absent by done;
      split; simpl; congruence.
  - destruct (strict (this new) && negb (JS.key_in key (states (this new))));
      [by split | by apply same_registry_settle].
  - intros Hmode.
    destruct (strict (this new)) eqn:Hs; simpl.
    2:{ split; [split; simpl; congruence|].
        split; [by intros v [= <-] | done]. }
    destruct (JS.key_in key (states (this new))); simpl.
    { split; [split; simpl; congruence|].
      split; [by intros v [= <-] | done]. }
    destruct Hmode as [|Hc]; [done|]. rewrite Hc.
    split; [split; simpl; congruence|]. by split.
Qed.

Lemma revisions_agree_witness :
  same_registry (Earlier.mkWorld Earlier.constructor []) isBusy
  ∧ strict (this isBusy) = false
  ∧ same_registry
      (Earlier.set "task" None (Earlier.mkWorld Earlier.constructor [])).2
      (after (set "task" None) isBusy)
  ∧ outcome (get "task" None) isBusy = Normal (VBool false)
  ∧ fst (Earlier.get "task" (Earlier.mkWorld Earlier.constructor []))
    = VBool false.
Proof.
  assert (Hsame : same_registry (Earlier.mkWorld Earlier.constructor [])
                    isBusy)
    by (by split).
  destruct (revisions_agree "task" None None None None None
              (Earlier.mkWorld Earlier.constructor []) isBusy)
    as (_ & Hcalls).
  destruct (Hcalls Hsame) as (_ & _ & Hset & Hget).
  destruct (Hget (or_introl eq_refl)) as (_ & Hvalue & _).
  split; [exact Hsame|]. split; [reflexivity|]. split; [exact Hset|].
  split; [reflexivity|]. exact (Hvalue (VBool false) eq_refl).
Defined.

(** ** Names the registry object inherits, and objects that refuse
    changes *)

Lemma inherited_member (obj : object) key :
  key ∈ JS.Object_prototype_names → proto obj = ObjectPrototype →
  JS.inherited obj key = Data (JS.Object_prototype_member key) true.
Proof.
  intros Hname Hp. unfold JS.inherited. rewrite Hp. simpl.
  unfold JS.Object_prototype_property.
  assert (Hno : "__proto__" ∉ JS.Object_prototype_names)
    by (apply (bool_decide_unpack _); vm_compute; exact I).
  destruct (decide (key = "__proto__")) as [->|_]; [done|].
  by destruct (decide (key ∈ JS.Object_prototype_names)).
Qed.

Lemma settle_same w :
  settle (Normal (states (this w))) w = (Normal tt, w).
Proof. unfold settle. by rewrite manager_eta, world_eta. Qed.

(** X19.  Names the registry object inherits pass for registered keys, as
    the functions of [Object.prototype] do on every object literal.  On a
    registry object with no entry of its own for a name under which it
    inherits a value, in every mode: [get] returns the inherited value
    (through [?? false]) and neither warns nor throws; [add] stores
    nothing and writes the already-registered warning, or ends in a
    [TypeError] when the value cannot be printed; [remove] returns and
    changes nothing; and [set] does not throw the not-registered error. *)
Theorem inherited_names_pass_for_registered key v wr x fb w :
  states (this w) !! key = None →
  JS.inherited (states (this w)) key = Data v wr →
  JS.key_in key (states (this w)) = true
  ∧ get key fb w = (Normal (JS.nullish_coalesce v (VBool false)), w)
  ∧ add key x w =
      match JS.template v with
      | Some printed =>
          (Normal tt,
           mkWorld (this w)
             (console w ++ [msg_already_registered key printed]))
      | None => (ThrowTypeError, w)
      end
  ∧ remove key w = (Normal tt, w)
  ∧ (∀ message, outcome (set key x) w ≠ Throw message).
Proof.
  intros Hk Hi.
  assert (Hin : JS.key_in key (states (this w)) = true)
    by (unfold JS.key_in; by rewrite Hk, Hi).
  assert (Hread : JS.index (states (this w)) key = v)
    by (unfold JS.index; by rewrite Hk, Hi).
  split; [done|]. calls. rewrite Hin, andb_false_r, Hread.
  split; [done|]. split; [done|]. split.
  - rewrite delete_absent by done. apply settle_same.
  - intros message (_ & Hout & _)%set_Throw_iff. congruence.
Qed.

(** [toString] on the registry as constructed, and a property of the
    prototype of a registry made with [Object.create]. *)
Lemma inherited_names_pass_for_registered_witness :
  (states (this strict_world) !! "toString" = None
   ∧ JS.inherited (states (this strict_world)) "toString"
       = Data (JS.Object_prototype_member "toString") true
   ∧ get "toString" None strict_world
       = (Normal (JS.Object_prototype_member "toString"), strict_world)
   ∧ remove "toString" strict_world = (Normal tt, strict_world))
  ∧ (states (this derived_world) !! "loading" = None
     ∧ JS.inherited (states (this derived_world)) "loading"
         = Data (VBool true) true
     ∧ get "loading" None derived_world = (Normal (VBool true), derived_world)
     ∧ add "loading" None derived_world
         = (Normal tt,
            mkWorld (this derived_world)
              [msg_already_registered "loading" "true"])).
Proof.
  destruct (inherited_names_pass_for_registered "toString"
              (JS.Object_prototype_member "toString") true None None
              strict_world eq_refl eq_refl)
    as (_ & Hget & _ & Hremove & _).
  destruct (inherited_names_pass_for_registered "loading" (VBool true) true
              None None derived_world eq_refl eq_refl)
    as (_ & Hread & Hadd & _).
  split.
  - split; [reflexivity|]. split; [reflexivity|].
    split; [exact Hget | exact Hremove].
  - split; [reflexivity|]. split; [reflexivity|].
    split; [exact Hread | exact Hadd].
Defined.

(** X20.  The key [__proto__] is not a flag.  On a registry object that
    inherits from [Object.prototype] and has no own entry of that name,
    [get] returns [Object.prototype] itself; [set] with a value that is
    neither [null] nor an object stores nothing and changes nothing; and
    [set] with [null] on an extensible object removes the prototype and
    stores nothing, after which the object finds exactly its own entries
    with [in]. *)
Theorem proto_key_is_not_a_flag x fb w :
  proto (states (this w)) = ObjectPrototype →
  states (this w) !! "__proto__" = None →
  get "__proto__" fb w = (Normal JS.Object_prototype, w)
  ∧ (JS.default_param x (VBool true) ≠ VNull →
     (∀ s, JS.default_param x (VBool true) ≠ VObject s) →
     set "__proto__" x w = (Normal tt, w))
  ∧ (extensible (states (this w)) = true →
     let bare := mkObject (own (states (this w))) NullPrototype true in
     set "__proto__" (Some VNull) w =
       (Normal tt,
        mkWorld (mkManager bare (strict (this w)) (createOnGet (this w)))
          (console w))
     ∧ ∀ key, JS.key_in key bare = true ↔ is_Some (bare !! key)).
Proof.
  intros Hp Hk.
  assert (Hi : JS.inherited (states (this w)) "__proto__" = ProtoAccessor)
    by (unfold JS.inherited; by rewrite Hp).
  assert (Hin : JS.key_in "__proto__" (states (this w)) = true)
    by (unfold JS.key_in; by rewrite Hk, Hi).
  assert (Hread : JS.index (states (this w)) "__proto__"
                  = JS.Object_prototype)
    by (unfold JS.index, JS.prototype_of; by rewrite Hk, Hi, Hp).
  calls. rewrite Hin, andb_false_r, Hread.
  apply own_lookup_None in Hk.
  unfold JS.assign_property, JS.assignment_of. rewrite Hk, Hi.
  split; [done|]. split.
  - intros Hnull Hobj.
    destruct (JS.default_param x (VBool true)) eqn:Hv;
      try apply settle_same; [done | by destruct (Hobj string_of)].
  - intros He. simpl. rewrite He. split; [done|].
    intros key. unfold JS.key_in, JS.inherited. cbn [proto JS.resolve].
    destruct (_ !! key); split; try done; by intros [? ?].
Qed.

Lemma proto_key_is_not_a_flag_witness :
  proto (states (this isBusy)) = ObjectPrototype
  ∧ states (this isBusy) !! "__proto__" = None
  ∧ get "__proto__" None isBusy = (Normal JS.Object_prototype, isBusy)
  ∧ set "__proto__" (Some (VStr "x")) isBusy = (Normal tt, isBusy)
  ∧ extensible (states (this isBusy)) = true
  ∧ outcome (set "__proto__" (Some VNull) ;; get "toString" None)%js isBusy
      = Normal (VBool false).
Proof.
  destruct (proto_key_is_not_a_flag (Some (VStr "x")) None isBusy
              eq_refl eq_refl) as (Hget & Hset & Hnull).
  destruct (Hnull eq_refl) as (Hbare & _).
  split; [reflexivity|]. split; [reflexivity|]. split; [exact Hget|].
  split; [apply Hset; [discriminate | intros s; discriminate]|].
  split; [reflexivity|].
  unfold outcome, bind. by rewrite Hbare.
Defined.

Lemma is_frozen_spec (obj : object) :
  JS.is_frozen obj = true ↔
  extensible obj = false
  ∧ ∀ key s, own obj !! key = Some s →
             writable s = false ∧ configurable s = false.
Proof.
  unfold JS.is_frozen.
  rewrite andb_true_iff, negb_true_iff, bool_decide_eq_true.
  by rewrite map_Forall_lookup.
Qed.

Lemma Object_freeze_frozen (obj : object) :
  JS.is_frozen (JS.Object_freeze obj) = true.
Proof.
  apply is_frozen_spec. split; [done|].
  intros key s. unfold JS.Object_freeze. cbn [own].
  rewrite lookup_fmap. by intros (s0 & _ & ->)%fmap_Some.
Qed.

Lemma frozen_assign key v (obj obj' : object) :
  JS.is_frozen obj = true →
  JS.assign_property key v obj = Normal obj' → obj' = obj.
Proof.
  intros [He Hslots]%is_frozen_spec.
  unfold JS.assign_property, JS.assignment_of.
  rewrite He. destruct (own obj !! key) as [s|] eqn:Hk.
  - destruct (Hslots key s Hk) as [-> _]. done.
  - destruct (JS.inherited obj key) as [|inh [|]|]; try done.
    destruct v; intros [= <-]; done.
Qed.

Lemma frozen_delete key (obj obj' : object) :
  JS.is_frozen obj = true →
  JS.delete_property key obj = Normal obj' → obj' = obj.
Proof.
  intros [_ Hslots]%is_frozen_spec. unfold JS.delete_property.
  destruct (own obj !! key) as [s|] eqn:Hk; [|by intros [= <-]].
  destruct (Hslots key s Hk) as [_ ->]. done.
Qed.

Lemma settle_unchanged change w :
  (∀ obj', change = Normal obj' → obj' = states (this w)) →
  this (settle change w).2 = this w.
Proof.
  intros H. destruct change as [obj'| | |]; simpl; try done.
  rewrite (H obj' eq_refl). apply manager_eta.
Qed.

(** X21.  A frozen object handed in through [initialStates] makes the
    registry read-only: no call of [add], [remove], [set] or [get], with
    any arguments and in any mode, changes the instance. *)
Theorem frozen_registry_is_read_only key x fb w :
  JS.is_frozen (states (this w)) = true →
  this (after (add key x) w) = this w
  ∧ this (after (remove key) w) = this w
  ∧ this (after (set key x) w) = this w
  ∧ this (after (get key fb) w) = this w.
Proof.
  intros Hfrozen.
  assert (Hassign : ∀ v,
            this (settle (JS.assign_property key v (states (this w))) w).2
            = this w)
    by (intros v; apply settle_unchanged; intros obj';
        by apply frozen_assign).
  assert (Hdelete :
            this (settle (JS.delete_property key (states (this w))) w).2
            = this w)
    by (apply settle_unchanged; intros obj'; by apply frozen_delete).
  unfold after. calls. split; [|split; [|split]].
  - destruct (JS.key_in key (states (this w)));
      [by destruct (JS.template _) | apply Hassign].
  - destruct (strict (this w) && negb (JS.key_in key (states (this w))));
      [done|].
    by destruct (JS.key_in key (states (this w))).
  - by destruct (strict (this w) && negb (JS.key_in key (states (this w)))).
  - destruct (strict (this w) && negb (JS.key_in key (states (this w))));
      [|done].
    destruct (createOnGet (this w)); [|done].
    specialize (Hassign (JS.default_param fb (VBool false))).
    destruct (settle _ w) as [[] w1]; simpl in *; try done.
    by destruct (JS.to_String _).
Qed.

Lemma frozen_registry_is_read_only_witness :
  JS.is_frozen (states (this frozen_world)) = true
  ∧ this (after (add "b" None) frozen_world) = this frozen_world
  ∧ this (after (set "a" None) frozen_world) = this frozen_world
  ∧ outcome (add "b" None) frozen_world = ThrowTypeError.
Proof.
  destruct (frozen_registry_is_read_only "b" None None frozen_world eq_refl)
    as (Hadd & _).
  destruct (frozen_registry_is_read_only "a" None None frozen_world eq_refl)
    as (_ & _ & Hset & _).
  split; [reflexivity|]. split; [exact Hadd|]. split; [exact Hset|].
  reflexivity.
Defined.

(** X22.  What [add] does where registration is tested on an inherited
    name or the warning prints a symbol.  On the registry as constructed,
    [add] on the name [constructor] stores nothing and writes the
    already-registered warning with the inherited [Object] function as the
    current value; and [add] on a key that holds a symbol ends in a
    [TypeError], because the warning interpolates the current value with a
    bare [${...}]. *)
Theorem add_on_inherited_name_or_symbol :
  states (this isBusy) !! "constructor" = None
  ∧ add "constructor" (Some (VStr "x")) isBusy
      = (Normal tt,
         mkWorld (this isBusy)
           [msg_already_registered "constructor"
              "function Object() { [native code] }"])
  ∧ states (this symbol_world) !! "id" = Some (VSymbol "id")
  ∧ add "id" (Some (VBool true)) symbol_world
      = (ThrowTypeError, symbol_world).
Proof. vm_compute. by repeat split. Qed.

(** X23.  An entry that the registry object protects refuses the change
    in every mode: [set] on an entry that is read-only, and [remove] of an
    entry that cannot be deleted, end in a [TypeError], write nothing and
    leave the instance as it was; [get] still serves the entry. *)
Theorem protected_entry_refuses key v x fb w :
  states (this w) !! key = Some v →
  (JS.stores key (states (this w)) = false →
   set key x w = (ThrowTypeError, w))
  ∧ (JS.deletes key (states (this w)) = false →
     remove key w = (ThrowTypeError, w))
  ∧ get key fb w = (Normal (JS.nullish_coalesce v (VBool false)), w).
Proof.
  intros Hk. calls.
  rewrite (key_in_own _ key v Hk), andb_false_r.
  rewrite (index_own _ key v Hk).
  rewrite (assign_own _ key _ v Hk), (delete_own _ key v Hk).
  split; [by intros ->|]. split; [by intros ->|done].
Qed.

Lemma protected_entry_refuses_witness :
  states (this frozen_world) !! "a" = Some (VStr "s")
  ∧ JS.stores "a" (states (this frozen_world)) = false
  ∧ JS.deletes "a" (states (this frozen_world)) = false
  ∧ set "a" None frozen_world = (ThrowTypeError, frozen_world)
  ∧ remove "a" frozen_world = (ThrowTypeError, frozen_world)
  ∧ get "a" None frozen_world = (Normal (VStr "s"), frozen_world).
Proof.
  destruct (protected_entry_refuses "a" (VStr "s") None None frozen_world
              eq_refl) as (Hset & Hremove & Hget).
  split; [reflexivity|]. split; [reflexivity|]. split; [reflexivity|].
  split; [exact (Hset eq_refl)|]. split; [exact (Hremove eq_refl)|].
  exact Hget.
Defined.

(** X24.  A registry object that cannot be extended takes no new key.  On
    a key that is not in the object, [add] ends in a [TypeError] and
    changes nothing, in every mode; so does [set] without strict mode; and
    in strict mode with [createOnGet], [get] ends in that [TypeError]
    before it warns or returns the fallback. *)
Theorem closed_registry_takes_no_new_key key x fb w :
  JS.key_in key (states (this w)) = false →
  extensible (states (this w)) = false →
  add key x w = (ThrowTypeError, w)
  ∧ (strict (this w) = false → set key x w = (ThrowTypeError, w))
  ∧ (strict (this w) = true → createOnGet (this w) = true →
     get key fb w = (ThrowTypeError, w)).
Proof.
  intros Hin He. calls. rewrite Hin, !assign_new, He by done.
  split; [done|]. split; [by intros ->|].
  by intros -> ->.
Qed.

Lemma closed_registry_takes_no_new_key_witness :
  JS.key_in "b" (states (this frozen_world)) = false
  ∧ extensible (states (this frozen_world)) = false
  ∧ strict (this frozen_world) = true
  ∧ createOnGet (this frozen_world) = true
  ∧ add "b" None frozen_world = (ThrowTypeError, frozen_world)
  ∧ get "b" None frozen_world = (ThrowTypeError, frozen_world).
Proof.
  destruct (closed_registry_takes_no_new_key "b" None None frozen_world
              eq_refl eq_refl) as (Hadd & _ & Hget).
  split; [reflexivity|]. split; [reflexivity|]. split; [reflexivity|].
  split; [reflexivity|]. split; [exact Hadd|].
  exact (Hget eq_refl eq_refl).
Defined.
